(** * SplashManager (splash_manager.py): a shallow embedding

    The Python class [SplashManager] wraps a Qt splash screen, a one-shot
    timer protocol and a reference to the main window.  The embedding keeps
    the object's attributes in a record, the Qt event loop's pending
    single-shot timers in a queue, and a clock in milliseconds.  Methods are
    written in a small state-and-exception monad, statement by statement.

    Toolkit semantics the embedding relies on (Qt documentation):
    - [QTimer.singleShot(msec, f)] queues [f] to run [msec] ms later; the
      event loop runs a queued callback at or after its due time, never
      before; a negative interval queues nothing;
    - [QSplashScreen.show] makes the surface visible, [close] and
      [finish(w)] make it non-visible; each is atomic;
    - [QApplication.processEvents] dispatches the timers that are due;
    - [QDateTime.msecsTo] is the difference of two clock readings, and the
      clock never runs backwards; the tolerance of coarse timers is not
      modelled;
    - calling a method on [None] raises [AttributeError]. *)

From Stdlib Require Import ZArith List Bool String Lia Arith.
From Stdlib Require Import DecimalString.
Import ListNotations.
Open Scope Z_scope.

(** ** Data *)

(** A main window is known by its identity only. *)
Definition Window := nat.

(** What a single-shot timer calls back: the bound method
    [self._check_and_finish] or the closure
    [lambda: self._do_finish(main_window)]. *)
Inductive callback :=
| CheckAndFinish
| DoFinish (w : Window).

Record QMovie := mkMovie {
  movie_isValid : bool;
  movie_scaledSize : option (Z * Z);
  movie_running : bool }.

Record QSplashScreen := mkSplash {
  isVisible : bool }.

(** The attributes of a [SplashManager].  [_finish_scheduled] is created
    by [finish] only, so it is [None] while the attribute does not exist. *)
Record SplashManager := mkManager {
  splash : option QSplashScreen;
  spinner_movie : option QMovie;
  start_time : option Z;
  min_splash_time : Z;
  main_window : option Window;
  _finish_scheduled : option bool }.

(** Observable events, each stamped with the clock when it happened:
    toolkit calls, [logger.debug] lines and entries into the two private
    callbacks. *)
Inductive event :=
| Tk_show
| Tk_close
| Tk_finish (w : Window)
| Tk_processEvents
| Log (msg : string)
| Enter_check_and_finish
| Enter_do_finish (w : Window).

(** The manager in its environment.  [timers] is in queueing order;
    [trace] has the most recent event first. *)
Record World := mkWorld {
  self : SplashManager;
  now : Z;
  timers : list (Z * callback);
  trace : list (Z * event) }.

(** What [resource_path] finds: whether each asset loads. *)
Record Resources := mkResources {
  logo_loads : bool;
  spinner_loads : bool }.

(** ** Attribute assignment *)

Definition set_splash (v : option QSplashScreen) (m : SplashManager) :=
  mkManager v (spinner_movie m) (start_time m) (min_splash_time m)
            (main_window m) (_finish_scheduled m).
Definition set_spinner_movie (v : option QMovie) (m : SplashManager) :=
  mkManager (splash m) v (start_time m) (min_splash_time m)
            (main_window m) (_finish_scheduled m).
Definition set_start_time (v : option Z) (m : SplashManager) :=
  mkManager (splash m) (spinner_movie m) v (min_splash_time m)
            (main_window m) (_finish_scheduled m).
Definition set_min_splash_time (v : Z) (m : SplashManager) :=
  mkManager (splash m) (spinner_movie m) (start_time m) v
            (main_window m) (_finish_scheduled m).
Definition set_main_window (v : option Window) (m : SplashManager) :=
  mkManager (splash m) (spinner_movie m) (start_time m) (min_splash_time m)
            v (_finish_scheduled m).
Definition set_finish_scheduled (v : option bool) (m : SplashManager) :=
  mkManager (splash m) (spinner_movie m) (start_time m) (min_splash_time m)
            (main_window m) v.

Definition with_self (f : SplashManager -> SplashManager) (W : World) :=
  mkWorld (f (self W)) (now W) (timers W) (trace W).
Definition with_now (t : Z) (W : World) :=
  mkWorld (self W) t (timers W) (trace W).
Definition with_timers (q : list (Z * callback)) (W : World) :=
  mkWorld (self W) (now W) q (trace W).
Definition with_trace (tr : list (Z * event)) (W : World) :=
  mkWorld (self W) (now W) (timers W) tr.

(** ** The monad: state over [World], with Python exceptions *)

Inductive exn :=
| AttributeError (what : string).

Inductive result (A : Type) :=
| Ok (a : A)
| Raise (e : exn).
Arguments Ok {A} a.
Arguments Raise {A} e.

Definition M (A : Type) := World -> result (A * World).

Definition ret {A} (a : A) : M A := fun W => Ok (a, W).
Definition bind {A B} (m : M A) (k : A -> M B) : M B :=
  fun W => match m W with
           | Ok (a, W') => k a W'
           | Raise e => Raise e
           end.
Definition raise {A} (e : exn) : M A := fun _ => Raise e.
Definition gets {A} (f : World -> A) : M A := fun W => Ok (f W, W).
Definition modify (f : World -> World) : M unit := fun W => Ok (tt, f W).

Notation "x <- m ;; k" := (bind m (fun x => k))
  (at level 61, m at next level, right associativity).
Notation "m ;; k" := (bind m (fun _ => k))
  (at level 61, right associativity).

Definition when (b : bool) (m : M unit) : M unit :=
  if b then m else ret tt.

(** Python truthiness of an attribute that holds an object or [None]. *)
Definition truthy {A} (o : option A) : bool :=
  match o with Some _ => true | None => false end.

Definition emit (e : event) : M unit :=
  modify (fun W => with_trace ((now W, e) :: trace W) W).

Definition logger_debug (msg : string) : M unit := emit (Log msg).

(** ** Toolkit primitives *)

(** [self.splash.<method>]: the receiver must be an object. *)
Definition the_splash : M QSplashScreen :=
  o <- gets (fun W => splash (self W)) ;;
  match o with
  | Some s => ret s
  | None => raise (AttributeError "splash")
  end.

Definition splash_isVisible : M bool :=
  s <- the_splash ;; ret (isVisible s).

Definition splash_set_visible (v : bool) : M unit :=
  modify (with_self (set_splash (Some (mkSplash v)))).

Definition splash_show : M unit :=
  _ <- the_splash ;; emit Tk_show ;; splash_set_visible true.

Definition splash_close : M unit :=
  _ <- the_splash ;; emit Tk_close ;; splash_set_visible false.

Definition splash_finish (w : Window) : M unit :=
  _ <- the_splash ;; emit (Tk_finish w) ;; splash_set_visible false.

Definition currentDateTime : M Z := gets now.

Definition msecsTo (a b : Z) : Z := b - a.

(** [QtCore.QTimer.singleShot(msec, cb)]. *)
Definition singleShot (msec : Z) (cb : callback) : M unit :=
  if msec <? 0 then ret tt
  else modify (fun W => with_timers (timers W ++ [(now W + msec, cb)]) W).

Definition string_of_Z (z : Z) : string :=
  NilZero.string_of_int (Z.to_int z).

(** [f"Waiting {remaining}ms to meet minimum splash time"]. *)
Definition waiting_msg (remaining : Z) : string :=
  String.append "Waiting "
    (String.append (string_of_Z remaining) "ms to meet minimum splash time").

(** [self.spinner_movie.<method>]. *)
Definition the_movie : M QMovie :=
  o <- gets (fun W => spinner_movie (self W)) ;;
  match o with
  | Some mv => ret mv
  | None => raise (AttributeError "spinner_movie")
  end.

(** [QtGui.QMovie(path)]: valid exactly when the file decodes. *)
Definition QMovie_new (loads : bool) : QMovie := mkMovie loads None false.

Definition movie_setScaledSize (sz : Z * Z) : M unit :=
  mv <- the_movie ;;
  modify (with_self (set_spinner_movie
    (Some (mkMovie (movie_isValid mv) (Some sz) (movie_running mv))))).

(** [QMovie.start]: an invalid movie stays stopped. *)
Definition movie_start : M unit :=
  mv <- the_movie ;;
  modify (with_self (set_spinner_movie
    (Some (mkMovie (movie_isValid mv) (movie_scaledSize mv) (movie_isValid mv))))).

(** ** The methods of [SplashManager] *)

(** [_create_splash_screen]: the widget, layout and labels are local
    objects (a logo that does not load is a null pixmap in one of them);
    what reaches [self] is the movie and the splash screen. *)
Definition _create_splash_screen (res : Resources) : M unit :=
  modify (with_self (set_spinner_movie (Some (QMovie_new (spinner_loads res))))) ;;
  mv <- the_movie ;;
  when (negb (movie_isValid mv)) (logger_debug "Spinner GIF failed to load!") ;;
  movie_setScaledSize (32, 32) ;;
  movie_start ;;
  modify (with_self (set_splash (Some (mkSplash false)))).

Definition __init__ (res : Resources) : M unit :=
  modify (with_self (set_splash None)) ;;
  modify (with_self (set_spinner_movie None)) ;;
  modify (with_self (set_start_time None)) ;;
  modify (with_self (set_min_splash_time 2000)) ;;
  modify (with_self (set_main_window None)) ;;
  _create_splash_screen res.

Definition _do_finish (w : Window) : M unit :=
  emit (Enter_do_finish w) ;;
  s <- gets (fun W => splash (self W)) ;;
  v <- (if truthy s then splash_isVisible else ret false) ;;
  when v (
    splash_finish w ;;
    logger_debug "Splash screen finished, showing main window").

Definition _check_and_finish : M unit :=
  emit Enter_check_and_finish ;;
  mw <- gets (fun W => main_window (self W)) ;;
  match mw with
  | Some w => _do_finish w
  | None =>
      logger_debug "Main window not set yet, waiting..." ;;
      singleShot 100 CheckAndFinish
  end.

Definition run_callback (cb : callback) : M unit :=
  match cb with
  | CheckAndFinish => _check_and_finish
  | DoFinish w => _do_finish w
  end.

(** ** The event loop *)

Definition remove_nth {A} (i : nat) (l : list A) : list A :=
  firstn i l ++ skipn (S i) l.

(** The timer at position [i] fires: it leaves the queue, the clock is at
    its due time or later, and its callback runs. *)
Definition fire (i : nat) : M unit :=
  q <- gets timers ;;
  match nth_error q i with
  | None => ret tt
  | Some (d, cb) =>
      modify (fun W => with_now (Z.max (now W) d) (with_timers (remove_nth i q) W)) ;;
      run_callback cb
  end.

(** Position and due time of the timer that expires first; among equal
    due times the one queued first. *)
Fixpoint earliest (q : list (Z * callback)) : option (nat * Z) :=
  match q with
  | [] => None
  | (d, _) :: q' =>
      match earliest q' with
      | Some (i, d') => if d' <? d then Some (S i, d') else Some (O, d)
      | None => Some (O, d)
      end
  end.

(** An exact event loop: the next timer fires at its due time. *)
Definition dispatch_next : M unit :=
  q <- gets timers ;;
  match earliest q with
  | Some (i, _) => fire i
  | None => ret tt
  end.

Fixpoint dispatch_n (n : nat) : M unit :=
  match n with
  | O => ret tt
  | S n' => dispatch_next ;; dispatch_n n'
  end.

(** Timers that are due at the current clock reading are dispatched, in
    order of expiry. *)
Fixpoint dispatch_due (fuel : nat) : M unit :=
  match fuel with
  | O => ret tt
  | S fuel' =>
      q <- gets timers ;;
      t <- gets now ;;
      match earliest q with
      | Some (i, d) => if d <=? t then fire i ;; dispatch_due fuel' else ret tt
      | None => ret tt
      end
  end.

(** [self.app.processEvents()]. *)
Definition app_processEvents : M unit :=
  emit Tk_processEvents ;;
  q <- gets timers ;;
  dispatch_due (List.length q).

Definition show : M unit :=
  s <- gets (fun W => splash (self W)) ;;
  when (truthy s) (
    splash_show ;;
    app_processEvents ;;
    t <- currentDateTime ;;
    modify (with_self (set_start_time (Some t))) ;;
    logger_debug "Splash screen displayed" ;;
    m <- gets (fun W => min_splash_time (self W)) ;;
    singleShot m CheckAndFinish).

Definition close : M unit :=
  s <- gets (fun W => splash (self W)) ;;
  v <- (if truthy s then splash_isVisible else ret false) ;;
  when v (
    splash_close ;;
    logger_debug "Splash screen closed").

(** [hasattr(self, '_finish_scheduled') and self._finish_scheduled]. *)
Definition is_finish_scheduled : M bool :=
  a <- gets (fun W => _finish_scheduled (self W)) ;;
  match a with
  | None => ret false
  | Some b => ret b
  end.

Definition finish (w : Window) : M unit :=
  s <- gets (fun W => splash (self W)) ;;
  if negb (truthy s) then ret tt
  else
    modify (with_self (set_finish_scheduled (Some true))) ;;
    st <- gets (fun W => start_time (self W)) ;;
    match st with
    | Some t0 =>
        t <- currentDateTime ;;
        let elapsed := msecsTo t0 t in
        m <- gets (fun W => min_splash_time (self W)) ;;
        let remaining := Z.max 0 (m - elapsed) in
        if 0 <? remaining then
          logger_debug (waiting_msg remaining) ;;
          singleShot remaining (DoFinish w)
        else
          _do_finish w
    | None => ret tt
    end.

(** ** Executions *)

(** What the host application and the passage of time can do to a
    manager: call a public method, assign [main_window], let time pass,
    let a pending timer fire. *)
Inductive action :=
| AShow
| AFinish (w : Window)
| AClose
| AIsFinishScheduled
| ASetMainWindow (o : option Window)
| AWait (d : N)
| ATimeout (i : nat).

Definition step (a : action) : M unit :=
  match a with
  | AShow => show
  | AFinish w => finish w
  | AClose => close
  | AIsFinishScheduled => is_finish_scheduled ;; ret tt
  | ASetMainWindow o => modify (with_self (set_main_window o))
  | AWait d => modify (fun W => with_now (now W + Z.of_N d) W)
  | ATimeout i => fire i
  end.

Fixpoint run (acts : list action) : M unit :=
  match acts with
  | [] => ret tt
  | a :: acts' => step a ;; run acts'
  end.

(** A fresh object before [__init__] has assigned anything, at clock
    reading [t0] with an idle event loop. *)
Definition blank : SplashManager := mkManager None None None 0 None None.
Definition new_world (t0 : Z) : World := mkWorld blank t0 [] [].

(** [SplashManager(app)]. *)
Definition construct (res : Resources) (t0 : Z) : result (unit * World) :=
  __init__ res (new_world t0).

(** ** Observations on a world *)

(** [self.splash and self.splash.isVisible()]. *)
Definition visible (W : World) : bool :=
  match splash (self W) with
  | Some s => isVisible s
  | None => false
  end.

(** The world [show] hands to the event loop: the surface is on screen
    and [processEvents] has been entered. *)
Definition splash_shown (W : World) : World :=
  mkWorld (set_splash (Some (mkSplash true)) (self W)) (now W) (timers W)
          ((now W, Tk_processEvents) :: (now W, Tk_show) :: trace W).

(** The last three statements of [show]: record [start_time], log, and
    queue [_check_and_finish]. *)
Definition timer_started (W : World) : World :=
  mkWorld (set_start_time (Some (now W)) (self W)) (now W)
          (if min_splash_time (self W) <? 0 then timers W
           else timers W ++ [(now W + min_splash_time (self W), CheckAndFinish)])
          ((now W, Log "Splash screen displayed") :: trace W).

(** Clock reading of the oldest [Tk_show] in a trace: when the splash
    was first shown. *)
Fixpoint first_show (tr : list (Z * event)) : option Z :=
  match tr with
  | [] => None
  | (t, e) :: tr' =>
      match first_show tr' with
      | Some s => Some s
      | None => match e with Tk_show => Some t | _ => None end
      end
  end.

Definition is_show (e : event) : bool :=
  match e with Tk_show => true | _ => false end.

(** The two toolkit calls that take the surface off the screen. *)
Definition is_closing (e : event) : bool :=
  match e with Tk_close | Tk_finish _ => true | _ => false end.

(** Toolkit calls that change what is on the screen. *)
Definition is_presenting (e : event) : bool :=
  is_show e || is_closing e.

Definition count_ev (p : event -> bool) (tr : list (Z * event)) : nat :=
  List.length (filter (fun te => p (snd te)) tr).

Definition shows (tr : list (Z * event)) : nat := count_ev is_show tr.
Definition closings (tr : list (Z * event)) : nat := count_ev is_closing tr.

(** Entries into [_do_finish], most recent first. *)
Fixpoint do_finish_runs (tr : list (Z * event)) : list (Z * Window) :=
  match tr with
  | [] => []
  | (t, Enter_do_finish w) :: tr' => (t, w) :: do_finish_runs tr'
  | _ :: tr' => do_finish_runs tr'
  end.

Definition is_check (tc : Z * callback) : bool :=
  match snd tc with CheckAndFinish => true | DoFinish _ => false end.

(** Pending [_check_and_finish] timers. *)
Definition pending_checks (q : list (Z * callback)) : nat :=
  List.length (filter is_check q).

Definition is_AShow (a : action) : bool :=
  match a with AShow => true | _ => false end.
Definition is_AFinish (a : action) : bool :=
  match a with AFinish _ => true | _ => false end.
Definition is_ASetMainWindow (a : action) : bool :=
  match a with ASetMainWindow _ => true | _ => false end.

(** A timer is due once the clock has reached its due time. *)
Definition is_due (t : Z) (tc : Z * callback) : bool := fst tc <=? t.

(** No toolkit call in [new] changes what is on the screen. *)
Definition quiet (new : list (Z * event)) : bool :=
  forallb (fun te => negb (is_presenting (snd te))) new.

(** What a piece of execution leaves alone.  The four flags say which
    parts it promises to keep: the [_finish_scheduled] attribute,
    [start_time], [main_window] (with the pending polls while it is
    unset), and a hidden surface staying hidden. *)
Record frame (kfs kst kmw khid : bool) (W W' : World) : Prop := mkFrame {
  fr_min : min_splash_time (self W') = min_splash_time (self W);
  fr_splash : truthy (splash (self W')) = truthy (splash (self W));
  fr_now : now W <= now W';
  fr_trace : exists new, trace W' = new ++ trace W /\
               (khid = true -> visible W = false -> quiet new = true);
  fr_fs : kfs = true ->
          _finish_scheduled (self W') = _finish_scheduled (self W);
  fr_st : kst = true -> start_time (self W') = start_time (self W);
  fr_mw : kmw = true -> main_window (self W') = main_window (self W);
  fr_checks : kmw = true -> main_window (self W) = None ->
              (pending_checks (timers W) <= pending_checks (timers W'))%nat;
  fr_hidden : khid = true -> visible W = false -> visible W' = false }.

(** Where the timers and the recorded times stand relative to the first
    time the splash was shown. *)
Definition timing_ok (W : World) : Prop :=
  match first_show (trace W) with
  | None =>
      timers W = [] /\ start_time (self W) = None /\
      (forall t w, ~ In (t, Enter_do_finish w) (trace W))
  | Some s0 =>
      s0 <= now W /\
      (forall d cb, In (d, cb) (timers W) ->
                    s0 + min_splash_time (self W) <= d) /\
      (forall s, start_time (self W) = Some s -> s0 <= s <= now W) /\
      (forall t w, In (t, Enter_do_finish w) (trace W) ->
                   s0 + min_splash_time (self W) <= t)
  end.

(** The minimum display time, counted from the first show, has passed. *)
Definition ripe (W : World) : Prop :=
  exists s0, first_show (trace W) = Some s0 /\
             s0 + min_splash_time (self W) <= now W.

(** What holds of every world a constructed manager can be in. *)
Record wf (W : World) : Prop := mkWf {
  wf_splash : splash (self W) <> None;
  wf_min : min_splash_time (self W) = 2000;
  wf_timing : timing_ok W;
  wf_count : (closings (trace W) + Nat.b2n (visible W) <= shows (trace W))%nat;
  wf_count1 : shows (trace W) <> O ->
              (closings (trace W) + Nat.b2n (visible W))%nat <> O;
  wf_single : shows (trace W) = 1%nat ->
              start_time (self W) = first_show (trace W) }.

(** The world a computation ends in; used to name the worlds of worked
    scenarios. *)
Definition world_of (r : result (unit * World)) : World :=
  match r with
  | Ok (_, W) => W
  | Raise _ => new_world 0
  end.

Definition constructed (res : Resources) (t0 : Z) : World :=
  world_of (construct res t0).

Definition after (acts : list action) (W : World) : World :=
  world_of (run acts W).

(** A worked execution: the splash is shown, the host calls [finish]
    half a second later, the main window is assigned, and the two queued
    timers fire. *)
Definition demo_res : Resources := mkResources true true.
Definition demo_acts : list action :=
  [AShow; AWait 500; AFinish 7%nat; ASetMainWindow (Some 7%nat);
   ATimeout 0; ATimeout 0].

(** Entries into [_check_and_finish], most recent first. *)
Fixpoint check_runs (tr : list (Z * event)) : list Z :=
  match tr with
  | [] => []
  | (t, Enter_check_and_finish) :: tr' => t :: check_runs tr'
  | _ :: tr' => check_runs tr'
  end.

(** [n] clock readings 100 ms apart starting at [d], most recent first. *)
Fixpoint cadence (d : Z) (n : nat) : list Z :=
  match n with
  | O => []
  | S k => (d + 100 * Z.of_nat k) :: cadence d k
  end.

Definition is_Tk_close (e : event) : bool :=
  match e with Tk_close => true | _ => false end.
Definition is_Tk_finish (e : event) : bool :=
  match e with Tk_finish _ => true | _ => false end.

(** The splash has been on screen for half a second. *)
Definition demo_shown : World :=
  after [AShow; AWait 500] (constructed demo_res 0).

(** The host was busy for two and a half seconds after [show]. *)
Definition demo_late : World :=
  after [AShow; AWait 2500] (constructed demo_res 0).

(** The spec's wording for a late [finish]: the call itself does not
    enter [_do_finish w]; it hands it to the event loop with zero delay,
    to run on the next tick. *)
Definition runs_on_next_tick (w : Window) (W W' : World) : Prop :=
  do_finish_runs (trace W') = do_finish_runs (trace W) /\
  In (now W, DoFinish w) (timers W').

(** The splash is on screen, nothing else has happened. *)
Definition demo_on_screen : World := after [AShow] (constructed demo_res 0).

(** What a host may still do after closing the splash early. *)
Definition demo_after_close : list action :=
  [AWait 2500; AFinish 7%nat; ATimeout 0; ASetMainWindow (Some 7%nat);
   ATimeout 0].

(** The world at the end of the worked execution. *)
Definition demo_done : World := after demo_acts (constructed demo_res 0).

(** A host that calls [finish] without ever having shown the splash. *)
Definition demo_not_shown : World :=
  after [AWait 300; AClose] (constructed demo_res 0).

(** The splash is on screen and polling; nobody assigns [main_window]. *)
Definition demo_unassigned : list action :=
  [AWait 2500; ATimeout 0; AFinish 7%nat; ATimeout 0; AClose; AShow].

(** [show] is called a second time, one second after the first; then the
    main window is assigned and the poll queued by the first [show] fires
    on time. *)
Definition demo_shown_twice : World :=
  after [AShow; AWait 1000; AShow; ASetMainWindow (Some 7%nat); ATimeout 0]
        (constructed demo_res 0).

(** The flag has just been set by an early [finish]. *)
Definition demo_flagged : World := after [AFinish 7%nat] demo_shown.

(** What may follow: the deferred finish fires, the host closes, shows
    again, waits, calls [finish] once more. *)
Definition demo_later : list action :=
  [AWait 1500; ATimeout 1; AClose; AShow; AWait 3000; AFinish 8%nat;
   AIsFinishScheduled].

(** * Proofs *)

(** ** What each method does, case by case *)

Ltac unfold_monad :=
  cbv [splash_show splash_close splash_finish splash_isVisible
       splash_set_visible the_splash currentDateTime the_movie
       movie_setScaledSize movie_start QMovie_new
       logger_debug emit when truthy negb visible
       bind ret gets modify raise
       with_self with_now with_timers with_trace
       set_splash set_spinner_movie set_start_time set_min_splash_time
       set_main_window set_finish_scheduled
       self now timers trace
       splash spinner_movie start_time min_splash_time main_window
       _finish_scheduled isVisible movie_isValid movie_scaledSize
       movie_running spinner_loads logo_loads].

(** Projections of explicit records, and nothing else. *)
Ltac sproj :=
  cbn [with_self with_now with_timers with_trace
       set_splash set_spinner_movie set_start_time set_min_splash_time
       set_main_window set_finish_scheduled
       self now timers trace
       splash spinner_movie start_time min_splash_time main_window
       _finish_scheduled isVisible truthy] in *.

Ltac destruct_world W :=
  let sp := fresh "sp" in
  destruct W as [[sp ? ? ? ? ?] ? ? ?];
  try (destruct sp as [[[|]]|]).

Lemma _do_finish_visible w W :
  visible W = true ->
  _do_finish w W =
  Ok (tt, mkWorld (set_splash (Some (mkSplash false)) (self W)) (now W)
            (timers W)
            ((now W, Log "Splash screen finished, showing main window")
               :: (now W, Tk_finish w)
               :: (now W, Enter_do_finish w) :: trace W)).
Proof.
  destruct_world W; unfold _do_finish; unfold_monad;
    intros H; try discriminate H; reflexivity.
Qed.

Lemma _do_finish_hidden w W :
  visible W = false ->
  _do_finish w W =
  Ok (tt, with_trace ((now W, Enter_do_finish w) :: trace W) W).
Proof.
  destruct_world W; unfold _do_finish; unfold_monad;
    intros H; try discriminate H; reflexivity.
Qed.

Lemma _check_and_finish_unset W :
  main_window (self W) = None ->
  _check_and_finish W =
  Ok (tt, mkWorld (self W) (now W)
            (timers W ++ [(now W + 100, CheckAndFinish)])
            ((now W, Log "Main window not set yet, waiting...")
               :: (now W, Enter_check_and_finish) :: trace W)).
Proof.
  destruct W as [[sp mv st m mw fs] t q tr]; cbn [self main_window].
  intros ->. unfold _check_and_finish, singleShot. unfold_monad.
  reflexivity.
Qed.

Lemma _check_and_finish_set W w :
  main_window (self W) = Some w ->
  _check_and_finish W =
  _do_finish w (with_trace ((now W, Enter_check_and_finish) :: trace W) W).
Proof.
  destruct W as [[sp mv st m mw fs] t q tr]; cbn [self main_window].
  intros ->. unfold _check_and_finish. unfold_monad. reflexivity.
Qed.

Lemma close_visible W :
  visible W = true ->
  close W =
  Ok (tt, mkWorld (set_splash (Some (mkSplash false)) (self W)) (now W)
            (timers W)
            ((now W, Log "Splash screen closed") :: (now W, Tk_close)
               :: trace W)).
Proof.
  destruct_world W; unfold close; unfold_monad;
    intros H; try discriminate H; reflexivity.
Qed.

Lemma close_hidden W :
  visible W = false -> close W = Ok (tt, W).
Proof.
  destruct_world W; unfold close; unfold_monad;
    intros H; try discriminate H; reflexivity.
Qed.

Lemma is_finish_scheduled_eq W :
  is_finish_scheduled W =
  Ok (match _finish_scheduled (self W) with Some b => b | None => false end,
      W).
Proof.
  destruct W as [[sp mv st m mw [b|]] t q tr];
    unfold is_finish_scheduled; unfold_monad; reflexivity.
Qed.

Lemma finish_no_splash w W :
  splash (self W) = None -> finish w W = Ok (tt, W).
Proof.
  destruct W as [[sp mv st m mw fs] t q tr]; cbn [self splash].
  intros ->. unfold finish. unfold_monad. reflexivity.
Qed.

Lemma finish_before_show w W :
  splash (self W) <> None ->
  start_time (self W) = None ->
  finish w W = Ok (tt, with_self (set_finish_scheduled (Some true)) W).
Proof.
  destruct W as [[[s|] mv st m mw fs] t q tr]; cbn [self splash start_time];
    intros Hs; try (exfalso; apply Hs; reflexivity).
  intros ->. unfold finish. unfold_monad. reflexivity.
Qed.

(** [remaining > 0]: the minimum display time has not elapsed. *)
Lemma finish_early w W t0 :
  splash (self W) <> None ->
  start_time (self W) = Some t0 ->
  now W - t0 < min_splash_time (self W) ->
  finish w W =
  Ok (tt, mkWorld (set_finish_scheduled (Some true) (self W)) (now W)
            (timers W ++
               [(now W + (min_splash_time (self W) - (now W - t0)), DoFinish w)])
            ((now W, Log (waiting_msg
                            (min_splash_time (self W) - (now W - t0))))
               :: trace W)).
Proof.
  destruct W as [[[s|] mv st m mw fs] t q tr];
    cbn [self splash start_time min_splash_time now];
    intros Hs; try (exfalso; apply Hs; reflexivity).
  intros -> Hlt. unfold finish, msecsTo. unfold_monad.
  assert (Hmax : Z.max 0 (m - (t - t0)) = m - (t - t0)) by lia.
  rewrite Hmax.
  assert (Hpos : (0 <? m - (t - t0)) = true) by (apply Z.ltb_lt; lia).
  rewrite Hpos. unfold singleShot.
  assert (Hneg : (m - (t - t0) <? 0) = false) by (apply Z.ltb_ge; lia).
  rewrite Hneg. unfold_monad. reflexivity.
Qed.

(** [remaining = 0]: the minimum display time has elapsed. *)
Lemma finish_late w W t0 :
  splash (self W) <> None ->
  start_time (self W) = Some t0 ->
  min_splash_time (self W) <= now W - t0 ->
  finish w W = _do_finish w (with_self (set_finish_scheduled (Some true)) W).
Proof.
  destruct W as [[[s|] mv st m mw fs] t q tr];
    cbn [self splash start_time min_splash_time now];
    intros Hs; try (exfalso; apply Hs; reflexivity).
  intros -> Hle. unfold finish, msecsTo. unfold_monad.
  assert (Hmax : Z.max 0 (m - (t - t0)) = 0) by lia.
  rewrite Hmax. reflexivity.
Qed.

Lemma fire_none i W :
  nth_error (timers W) i = None -> fire i W = Ok (tt, W).
Proof.
  destruct W as [sf t q tr]; cbn [timers]. intros H.
  unfold fire. unfold_monad. rewrite H. reflexivity.
Qed.

Lemma fire_some i W d cb :
  nth_error (timers W) i = Some (d, cb) ->
  fire i W =
  run_callback cb
    (mkWorld (self W) (Z.max (now W) d) (remove_nth i (timers W)) (trace W)).
Proof.
  destruct W as [sf t q tr]; cbn [timers]. intros H.
  unfold fire. unfold_monad. rewrite H. reflexivity.
Qed.

(** ** No method raises *)

Lemma _do_finish_ok w W : exists W', _do_finish w W = Ok (tt, W').
Proof.
  destruct (visible W) eqn:Hv.
  - rewrite (_do_finish_visible w W Hv). eexists; reflexivity.
  - rewrite (_do_finish_hidden w W Hv). eexists; reflexivity.
Qed.

Lemma _check_and_finish_ok W : exists W', _check_and_finish W = Ok (tt, W').
Proof.
  destruct (main_window (self W)) as [w|] eqn:Hmw.
  - rewrite (_check_and_finish_set W w Hmw). apply _do_finish_ok.
  - rewrite (_check_and_finish_unset W Hmw). eexists; reflexivity.
Qed.

Lemma run_callback_ok cb W : exists W', run_callback cb W = Ok (tt, W').
Proof.
  destruct cb as [|w]; [apply _check_and_finish_ok | apply _do_finish_ok].
Qed.

Lemma fire_ok i W : exists W', fire i W = Ok (tt, W').
Proof.
  destruct (nth_error (timers W) i) as [[d cb]|] eqn:Hn.
  - rewrite (fire_some i W d cb Hn). apply run_callback_ok.
  - rewrite (fire_none i W Hn). eexists; reflexivity.
Qed.

(** Running [m] and then [k]: the shape every proof about a sequence of
    two computations starts from. *)
Lemma bind_ok {A B} (m : M A) (k : A -> M B) W a W1 :
  m W = Ok (a, W1) -> bind m k W = k a W1.
Proof. unfold bind. intros ->. reflexivity. Qed.

Lemma bind_inv {A B} (m : M A) (k : A -> M B) W b W2 :
  bind m k W = Ok (b, W2) ->
  exists a W1, m W = Ok (a, W1) /\ k a W1 = Ok (b, W2).
Proof.
  unfold bind. destruct (m W) as [[a W1]|e]; [|discriminate].
  intros H. exists a, W1. split; [reflexivity | exact H].
Qed.

Lemma dispatch_due_step fuel W :
  dispatch_due (S fuel) W =
  match earliest (timers W) with
  | Some (i, d) =>
      if d <=? now W then bind (fire i) (fun _ => dispatch_due fuel) W
      else Ok (tt, W)
  | None => Ok (tt, W)
  end.
Proof.
  cbn [dispatch_due]. unfold bind at 1 2, gets.
  destruct (earliest (timers W)) as [[i d]|]; [|reflexivity].
  destruct (d <=? now W); reflexivity.
Qed.

Lemma dispatch_next_eq W :
  dispatch_next W =
  match earliest (timers W) with
  | Some (i, _) => fire i W
  | None => Ok (tt, W)
  end.
Proof.
  unfold dispatch_next, bind, gets.
  destruct (earliest (timers W)) as [[i d]|]; reflexivity.
Qed.

Lemma dispatch_due_ok fuel : forall W, exists W', dispatch_due fuel W = Ok (tt, W').
Proof.
  induction fuel as [|fuel IH]; intros W.
  - eexists; reflexivity.
  - rewrite dispatch_due_step.
    destruct (earliest (timers W)) as [[i d]|]; [|eexists; reflexivity].
    destruct (d <=? now W); [|eexists; reflexivity].
    destruct (fire_ok i W) as [W1 H1].
    rewrite (bind_ok _ _ _ _ _ H1). apply IH.
Qed.

Lemma dispatch_next_ok W : exists W', dispatch_next W = Ok (tt, W').
Proof.
  rewrite dispatch_next_eq.
  destruct (earliest (timers W)) as [[i d]|];
    [apply fire_ok | eexists; reflexivity].
Qed.

Lemma dispatch_n_ok n : forall W, exists W', dispatch_n n W = Ok (tt, W').
Proof.
  induction n as [|n IH]; intros W.
  - eexists; reflexivity.
  - cbn [dispatch_n]. destruct (dispatch_next_ok W) as [W1 H1].
    rewrite (bind_ok _ _ _ _ _ H1). apply IH.
Qed.

Lemma show_no_splash W :
  splash (self W) = None -> show W = Ok (tt, W).
Proof.
  destruct W as [[sp mv st m mw fs] t q tr]; cbn [self splash].
  intros ->. unfold show. unfold_monad. reflexivity.
Qed.

Lemma show_eq W W2 :
  splash (self W) <> None ->
  dispatch_due (List.length (timers W)) (splash_shown W) = Ok (tt, W2) ->
  show W = Ok (tt, timer_started W2).
Proof.
  destruct W as [[[s|] mv st m mw fs] t q tr]; cbn [self splash];
    intros Hs; try (exfalso; apply Hs; reflexivity).
  intros Hd.
  cbv [splash_shown set_splash self now timers trace splash
       spinner_movie start_time min_splash_time main_window
       _finish_scheduled] in Hd.
  unfold show, app_processEvents. unfold_monad.
  rewrite Hd.
  destruct W2 as [[sp2 mv2 st2 m2 mw2 fs2] t2 q2 tr2].
  unfold singleShot, timer_started. unfold_monad.
  destruct (m2 <? 0); reflexivity.
Qed.

Lemma timers_timer_started W :
  0 <= min_splash_time (self W) ->
  timers (timer_started W) =
  timers W ++ [(now W + min_splash_time (self W), CheckAndFinish)].
Proof.
  intros H. unfold timer_started. cbn [timers].
  assert (Hneg : (min_splash_time (self W) <? 0) = false)
    by (apply Z.ltb_ge; lia).
  rewrite Hneg. reflexivity.
Qed.

(** ** Frames: what each method leaves alone *)

Lemma frame_refl a b c d W : frame a b c d W W.
Proof.
  split; auto; try lia.
  exists []. split; [reflexivity | intros; reflexivity].
Qed.

Lemma frame_trans a b c d W1 W2 W3 :
  frame a b c d W1 W2 -> frame a b c d W2 W3 -> frame a b c d W1 W3.
Proof.
  intros [m1 s1 n1 [new1 [t1 q1]] f1 st1 mw1 c1 h1]
         [m2 s2 n2 [new2 [t2 q2]] f2 st2 mw2 c2 h2].
  split.
  - congruence.
  - congruence.
  - lia.
  - exists (new2 ++ new1). split.
    + rewrite t2, t1. apply app_assoc.
    + intros Hd Hv. unfold quiet. rewrite forallb_app.
      apply andb_true_intro. split.
      * apply q2; auto.
      * apply q1; auto.
  - intros H. rewrite (f2 H). auto.
  - intros H. rewrite (st2 H). auto.
  - intros H. rewrite (mw2 H). auto.
  - intros H Hn. specialize (c1 H Hn).
    assert (Hn2 : main_window (self W2) = None) by (rewrite (mw1 H); exact Hn).
    specialize (c2 H Hn2). lia.
  - intros H Hv. auto.
Qed.

(** A frame that keeps more also keeps less. *)
Lemma frame_weaken a b c d a' b' c' d' W W' :
  (a' = true -> a = true) -> (b' = true -> b = true) ->
  (c' = true -> c = true) -> (d' = true -> d = true) ->
  frame a b c d W W' -> frame a' b' c' d' W W'.
Proof.
  intros Ha Hb Hc Hd [m1 s1 n1 [new1 [t1 q1]] f1 st1 mw1 c1 h1].
  split; auto.
  exists new1. split; auto.
Qed.

Lemma pending_checks_app q1 q2 :
  pending_checks (q1 ++ q2) = (pending_checks q1 + pending_checks q2)%nat.
Proof.
  unfold pending_checks. rewrite filter_app, length_app. reflexivity.
Qed.

Lemma frame_do_finish w W W' :
  _do_finish w W = Ok (tt, W') -> frame true true true true W W'.
Proof.
  destruct (visible W) eqn:Hv.
  - rewrite (_do_finish_visible w W Hv). intros H; injection H as <-.
    destruct W as [[sp mv st m mw fs] t q tr].
    split; cbn; auto; try lia; try congruence.
    + unfold visible in Hv; cbn in Hv. destruct sp; [reflexivity|discriminate].
    + eexists [_; _; _]. split; [reflexivity|]. intros _ Hv'.
      unfold visible in *. cbn in *. congruence.
  - rewrite (_do_finish_hidden w W Hv). intros H; injection H as <-.
    destruct W as [[sp mv st m mw fs] t q tr].
    split; cbn; auto; try lia.
    eexists [_]. split; [reflexivity|]. intros _ _. reflexivity.
Qed.

Lemma frame_check_and_finish W W' :
  _check_and_finish W = Ok (tt, W') -> frame true true true true W W'.
Proof.
  destruct (main_window (self W)) as [w|] eqn:Hmw.
  - rewrite (_check_and_finish_set W w Hmw). intros H.
    apply frame_do_finish in H.
    eapply frame_trans; [|exact H].
    destruct W as [[sp mv st m mw fs] t q tr].
    split; cbn; auto; try lia.
    eexists [_]. split; [reflexivity|]. intros _ _. reflexivity.
  - rewrite (_check_and_finish_unset W Hmw). intros H; injection H as <-.
    destruct W as [[sp mv st m mw fs] t q tr].
    split; sproj; auto; try lia.
    + eexists [_; _]. split; [reflexivity|]. intros _ _. reflexivity.
    + intros _ _. rewrite pending_checks_app. lia.
Qed.

Lemma remove_nth_cons {A} i (a : A) l :
  remove_nth (S i) (a :: l) = a :: remove_nth i l.
Proof. reflexivity. Qed.

Lemma In_remove_nth {A} (x : A) : forall l i, In x (remove_nth i l) -> In x l.
Proof.
  induction l as [|a l IH]; intros i H.
  - destruct i; exact H.
  - destruct i as [|i].
    + right. exact H.
    + rewrite remove_nth_cons in H. destruct H as [H|H].
      * left; exact H.
      * right. eapply IH; exact H.
Qed.

Lemma pending_checks_remove : forall q i x,
  nth_error q i = Some x ->
  pending_checks q = (pending_checks (remove_nth i q) + Nat.b2n (is_check x))%nat.
Proof.
  induction q as [|a q IH]; intros i x H.
  - destruct i; discriminate H.
  - destruct i as [|i].
    + injection H as ->. unfold remove_nth, pending_checks. cbn.
      destruct (is_check x); cbn; lia.
    + rewrite remove_nth_cons. cbn in H. specialize (IH i x H).
      unfold pending_checks in *. cbn. destruct (is_check a); cbn; lia.
Qed.

(** Moving the starting point of a frame to a world that differs in the
    clock and the timer queue only. *)
Lemma frame_shift a b c d W Wm W' :
  self Wm = self W -> trace Wm = trace W -> now W <= now Wm ->
  (c = true -> main_window (self W) = None ->
   (pending_checks (timers W) <= pending_checks (timers W'))%nat) ->
  frame a b c d Wm W' -> frame a b c d W W'.
Proof.
  intros Hs Ht Hn Hc [m1 s1 n1 [new1 [t1 q1]] f1 st1 mw1 c1 h1].
  unfold visible in *. rewrite Hs in *. rewrite Ht in *.
  split; auto; try lia.
  exists new1. split; auto.
Qed.

Lemma frame_fire i W W' :
  fire i W = Ok (tt, W') -> frame true true true true W W'.
Proof.
  destruct (nth_error (timers W) i) as [[d cb]|] eqn:Hn.
  - rewrite (fire_some i W d cb Hn).
    pose proof (pending_checks_remove _ _ _ Hn) as Hp.
    set (Wm := mkWorld (self W) (Z.max (now W) d)
                       (remove_nth i (timers W)) (trace W)).
    destruct cb as [|w]; cbn [run_callback]; intros H.
    + apply (frame_shift _ _ _ _ W Wm W'); try reflexivity.
      * cbn. lia.
      * intros _ Hmw.
        rewrite (_check_and_finish_unset Wm Hmw) in H. injection H as <-.
        subst Wm. sproj. rewrite pending_checks_app. cbn in *. lia.
      * apply frame_check_and_finish. exact H.
    + apply (frame_shift _ _ _ _ W Wm W'); try reflexivity.
      * cbn. lia.
      * intros _ _. pose proof (frame_do_finish w Wm W' H) as F.
        destruct (visible Wm) eqn:Hv.
        -- rewrite (_do_finish_visible w Wm Hv) in H. injection H as <-.
           subst Wm. sproj. cbn in Hp. lia.
        -- rewrite (_do_finish_hidden w Wm Hv) in H. injection H as <-.
           subst Wm. sproj. cbn in Hp. lia.
      * apply (frame_do_finish w). exact H.
  - rewrite (fire_none i W Hn). intros H; injection H as <-.
    apply frame_refl.
Qed.

Lemma frame_dispatch_due fuel : forall W W',
  dispatch_due fuel W = Ok (tt, W') -> frame true true true true W W'.
Proof.
  induction fuel as [|fuel IH]; intros W W' H.
  - injection H as <-. apply frame_refl.
  - rewrite dispatch_due_step in H.
    destruct (earliest (timers W)) as [[i d]|];
      [|injection H as <-; apply frame_refl].
    destruct (d <=? now W); [|injection H as <-; apply frame_refl].
    apply bind_inv in H. destruct H as [[] [W1 [H1 H2]]].
    eapply frame_trans; [eapply frame_fire; exact H1 | apply IH; exact H2].
Qed.

Lemma frame_dispatch_next W W' :
  dispatch_next W = Ok (tt, W') -> frame true true true true W W'.
Proof.
  rewrite dispatch_next_eq.
  destruct (earliest (timers W)) as [[i d]|].
  - apply frame_fire.
  - intros H; injection H as <-. apply frame_refl.
Qed.

Lemma frame_dispatch_n n : forall W W',
  dispatch_n n W = Ok (tt, W') -> frame true true true true W W'.
Proof.
  induction n as [|n IH]; intros W W' H.
  - injection H as <-. apply frame_refl.
  - cbn [dispatch_n] in H.
    apply bind_inv in H. destruct H as [[] [W1 [H1 H2]]].
    eapply frame_trans; [eapply frame_dispatch_next; exact H1 | apply IH; exact H2].
Qed.

Lemma frame_close W W' :
  close W = Ok (tt, W') -> frame true true true true W W'.
Proof.
  destruct (visible W) eqn:Hv.
  - rewrite (close_visible W Hv). intros H; injection H as <-.
    destruct W as [[sp mv st m mw fs] t q tr].
    split; sproj; auto; try lia; try congruence.
    + unfold visible in Hv; cbn in Hv. destruct sp; [reflexivity|discriminate].
    + eexists [_; _]. split; [reflexivity|]. intros _ Hv'. congruence.
  - rewrite (close_hidden W Hv). intros H; injection H as <-.
    apply frame_refl.
Qed.

Lemma frame_finish w W W' :
  finish w W = Ok (tt, W') -> frame false true true true W W'.
Proof.
  destruct (splash (self W)) as [s|] eqn:Hs.
  2:{ rewrite (finish_no_splash w W Hs). intros H; injection H as <-.
      apply frame_refl. }
  assert (Hs' : splash (self W) <> None) by congruence.
  assert (F0 : frame false true true true W
                 (with_self (set_finish_scheduled (Some true)) W)).
  { destruct W as [[sp mv st m mw fs] t q tr].
    split; sproj; auto; try lia; try discriminate.
    exists []. split; [reflexivity|]. intros _ _. reflexivity. }
  destruct (start_time (self W)) as [t0|] eqn:Hst.
  2:{ rewrite (finish_before_show w W Hs' Hst). intros H; injection H as <-.
      exact F0. }
  destruct (Z_lt_le_dec (now W - t0) (min_splash_time (self W))) as [Hlt|Hle].
  - rewrite (finish_early w W t0 Hs' Hst Hlt). intros H; injection H as <-.
    destruct W as [[sp mv st m mw fs] t q tr].
    split; sproj; auto; try lia; try discriminate.
    + eexists [_]. split; [reflexivity|]. intros _ _. reflexivity.
    + intros _ _. rewrite pending_checks_app. lia.
  - rewrite (finish_late w W t0 Hs' Hst Hle). intros H.
    eapply frame_trans; [exact F0|].
    eapply frame_weaken; [| | | |eapply frame_do_finish; exact H]; auto.
Qed.

Lemma show_ok W : exists W', show W = Ok (tt, W').
Proof.
  destruct (splash (self W)) as [s|] eqn:Hs.
  - destruct (dispatch_due_ok (List.length (timers W)) (splash_shown W))
      as [W2 H2].
    exists (timer_started W2). apply show_eq; [congruence | exact H2].
  - exists W. apply show_no_splash. exact Hs.
Qed.

Lemma frame_show W W' :
  show W = Ok (tt, W') -> frame true false true false W W'.
Proof.
  destruct (splash (self W)) as [s|] eqn:Hs.
  2:{ rewrite (show_no_splash W Hs). intros H; injection H as <-.
      apply frame_refl. }
  destruct (dispatch_due_ok (List.length (timers W)) (splash_shown W))
    as [W2 H2].
  rewrite (show_eq W W2 ltac:(congruence) H2). intros H; injection H as <-.
  apply frame_dispatch_due in H2.
  apply (frame_trans _ _ _ _ W (splash_shown W)).
  { destruct W as [[sp mv st m mw fs] t q tr]. unfold splash_shown.
    cbn [self splash] in Hs. subst sp.
    split; sproj; auto; try lia; try discriminate.
    eexists [_; _]. split; [reflexivity|]. discriminate. }
  apply (frame_trans _ _ _ _ _ W2).
  { eapply frame_weaken; [| | | |exact H2]; auto. }
  destruct W2 as [[sp mv st m mw fs] t q tr]. unfold timer_started.
  split; sproj; auto; try lia; try discriminate.
  - eexists [_]. split; [reflexivity|]. discriminate.
  - intros _ _. destruct (m <? 0); [lia|]. rewrite pending_checks_app. lia.
Qed.

Lemma close_ok W : exists W', close W = Ok (tt, W').
Proof.
  destruct (visible W) eqn:Hv.
  - rewrite (close_visible W Hv). eexists; reflexivity.
  - rewrite (close_hidden W Hv). eexists; reflexivity.
Qed.

Lemma finish_ok w W : exists W', finish w W = Ok (tt, W').
Proof.
  destruct (splash (self W)) as [s|] eqn:Hs.
  2:{ rewrite (finish_no_splash w W Hs). eexists; reflexivity. }
  assert (Hs' : splash (self W) <> None) by congruence.
  destruct (start_time (self W)) as [t0|] eqn:Hst.
  2:{ rewrite (finish_before_show w W Hs' Hst). eexists; reflexivity. }
  destruct (Z_lt_le_dec (now W - t0) (min_splash_time (self W))) as [Hlt|Hle].
  - rewrite (finish_early w W t0 Hs' Hst Hlt). eexists; reflexivity.
  - rewrite (finish_late w W t0 Hs' Hst Hle). apply _do_finish_ok.
Qed.

Lemma step_ok a W : exists W', step a W = Ok (tt, W').
Proof.
  destruct a; cbn [step].
  - apply show_ok.
  - apply finish_ok.
  - apply close_ok.
  - unfold bind. rewrite is_finish_scheduled_eq. eexists; reflexivity.
  - eexists; reflexivity.
  - eexists; reflexivity.
  - apply fire_ok.
Qed.

(** Whatever the host does, in whatever order, no call raises. *)
Lemma run_ok acts : forall W, exists W', run acts W = Ok (tt, W').
Proof.
  induction acts as [|a acts IH]; intros W.
  - eexists; reflexivity.
  - cbn [run]. destruct (step_ok a W) as [W1 H1].
    rewrite (bind_ok _ _ _ _ _ H1). apply IH.
Qed.

Lemma frame_step a W W' :
  step a W = Ok (tt, W') ->
  frame (negb (is_AFinish a)) (negb (is_AShow a))
        (negb (is_ASetMainWindow a)) (negb (is_AShow a)) W W'.
Proof.
  destruct a; cbn [step is_AFinish is_AShow is_ASetMainWindow negb]; intros H.
  - apply frame_show; exact H.
  - apply (frame_finish w); exact H.
  - apply frame_close; exact H.
  - unfold bind in H. rewrite is_finish_scheduled_eq in H.
    injection H as <-. apply frame_refl.
  - injection H as <-. destruct W as [[sp mv st m mw fs] t q tr].
    split; sproj; auto; try lia; try discriminate.
    exists []. split; [reflexivity|]. intros _ _. reflexivity.
  - injection H as <-. destruct W as [[sp mv st m mw fs] t q tr].
    split; sproj; auto; try lia; try discriminate.
    exists []. split; [reflexivity|]. intros _ _. reflexivity.
  - apply (frame_fire i); exact H.
Qed.

Lemma frame_run acts : forall W W',
  run acts W = Ok (tt, W') ->
  frame (forallb (fun a => negb (is_AFinish a)) acts)
        (forallb (fun a => negb (is_AShow a)) acts)
        (forallb (fun a => negb (is_ASetMainWindow a)) acts)
        (forallb (fun a => negb (is_AShow a)) acts) W W'.
Proof.
  induction acts as [|a acts IH]; intros W W' H.
  - injection H as <-. apply frame_refl.
  - cbn [run] in H. apply bind_inv in H. destruct H as [[] [W1 [H1 H2]]].
    apply frame_step in H1. apply IH in H2. cbn [forallb].
    eapply frame_trans.
    + eapply frame_weaken; [| | | |exact H1];
        intros E; apply andb_prop in E; tauto.
    + eapply frame_weaken; [| | | |exact H2];
        intros E; apply andb_prop in E; tauto.
Qed.

(** ** The invariant of constructed managers *)

Lemma first_show_shows tr : first_show tr = None <-> shows tr = O.
Proof.
  unfold shows, count_ev. induction tr as [|[t e] tr IH]; cbn.
  - tauto.
  - destruct (first_show tr) as [s|].
    + split; [discriminate|]. destruct (is_show e); cbn; [discriminate|].
      intros H. apply IH in H. discriminate.
    + destruct e; cbn; split; try discriminate; try tauto.
Qed.

Ltac wf_open :=
  unfold timing_ok, ripe, visible, shows, closings, count_ev in *; sproj;
  cbn [first_show filter snd is_show is_closing List.length Nat.b2n In] in *.

Lemma wf_do_finish w W W' :
  wf W -> ripe W -> _do_finish w W = Ok (tt, W') -> wf W'.
Proof.
  intros [Hs Hm Ht Hc Hc1 H1] [s0 [Hf Hr]].
  destruct (visible W) eqn:Hv.
  - rewrite (_do_finish_visible w W Hv). intros H; injection H as <-.
    destruct W as [[sp mv st m mw fs] t q tr].
    split; wf_open; rewrite ?Hv, ?Hf in *; wf_open; try discriminate; try lia; auto.
    + destruct Ht as (A & B & C & D). split; [|split; [|split]]; auto.
      intros t1 w1 [E|[E|[E|E]]]; try discriminate; eauto.
      injection E as <- <-. lia.
  - rewrite (_do_finish_hidden w W Hv). intros H; injection H as <-.
    destruct W as [[sp mv st m mw fs] t q tr].
    split; wf_open; rewrite ?Hv, ?Hf in *; wf_open; try discriminate; try lia; auto.
    + destruct Ht as (A & B & C & D). split; [|split; [|split]]; auto.
      intros t1 w1 [E|E]; try discriminate; eauto.
      injection E as <- <-. lia.
Qed.

Lemma wf_check_and_finish W W' :
  wf W -> ripe W -> _check_and_finish W = Ok (tt, W') -> wf W'.
Proof.
  intros HW HR.
  destruct (main_window (self W)) as [w|] eqn:Hmw.
  - rewrite (_check_and_finish_set W w Hmw). apply wf_do_finish.
    + destruct HW as [Hs Hm Ht Hc Hc1 H1]. destruct HR as [s0 [Hf Hr]].
      destruct W as [[sp mv st m mw fs] t q tr].
      split; wf_open; rewrite ?Hf in *; wf_open; try discriminate; try lia; auto.
      destruct Ht as (A & B & C & D). split; [|split; [|split]]; auto.
      intros t1 w1 [E|E]; try discriminate; eauto.
    + destruct HR as [s0 [Hf Hr]]. exists s0.
      destruct W as [[sp mv st m mw fs] t q tr].
      wf_open. rewrite Hf. auto.
  - rewrite (_check_and_finish_unset W Hmw). intros H; injection H as <-.
    destruct HW as [Hs Hm Ht Hc Hc1 H1]. destruct HR as [s0 [Hf Hr]].
    destruct W as [[sp mv st m mw fs] t q tr].
    split; wf_open; rewrite ?Hf in *; wf_open; try discriminate; try lia; auto.
    destruct Ht as (A & B & C & D). split; [|split; [|split]]; auto.
    + intros d cb Hin. apply in_app_or in Hin. destruct Hin as [Hin|[E|[]]].
      * eauto.
      * injection E as <- <-. lia.
    + intros t1 w1 [E|[E|E]]; try discriminate; eauto.
Qed.

Lemma wf_fire i W W' : wf W -> fire i W = Ok (tt, W') -> wf W'.
Proof.
  intros HW.
  destruct (nth_error (timers W) i) as [[d cb]|] eqn:Hn.
  2:{ rewrite (fire_none i W Hn). intros H; injection H as <-. exact HW. }
  rewrite (fire_some i W d cb Hn).
  apply nth_error_In in Hn.
  set (Wm := mkWorld (self W) (Z.max (now W) d)
                     (remove_nth i (timers W)) (trace W)).
  assert (HWm : wf Wm /\ ripe Wm).
  { destruct HW as [Hs Hm Ht Hc Hc1 H1].
    destruct W as [[sp mv st m mw fs] t q tr]. subst Wm.
    unfold timing_ok in Ht. sproj.
    destruct (first_show tr) as [s0|] eqn:Hf.
    - destruct Ht as (A & B & C & D). pose proof (B _ _ Hn) as Hd.
      split.
      + split; wf_open; rewrite ?Hf in *; auto.
        split; [|split; [|split]]; auto; try lia.
        * intros d' cb' Hin. apply In_remove_nth in Hin. eauto.
        * intros s E. specialize (C s E). lia.
      + exists s0. wf_open. split; [exact Hf | lia].
    - destruct Ht as (A & _). rewrite A in Hn. destruct Hn. }
  destruct HWm as [HWm HRm].
  destruct cb as [|w]; cbn [run_callback].
  - apply wf_check_and_finish; assumption.
  - apply wf_do_finish; assumption.
Qed.

Lemma wf_dispatch_due fuel : forall W W',
  wf W -> dispatch_due fuel W = Ok (tt, W') -> wf W'.
Proof.
  induction fuel as [|fuel IH]; intros W W' HW H.
  - injection H as <-. exact HW.
  - rewrite dispatch_due_step in H.
    destruct (earliest (timers W)) as [[i d]|];
      [|injection H as <-; exact HW].
    destruct (d <=? now W); [|injection H as <-; exact HW].
    apply bind_inv in H. destruct H as [[] [W1 [H1 H2]]].
    eapply IH; [eapply wf_fire; [exact HW | exact H1] | exact H2].
Qed.

Lemma wf_close W W' : wf W -> close W = Ok (tt, W') -> wf W'.
Proof.
  intros HW.
  destruct (visible W) eqn:Hv.
  - rewrite (close_visible W Hv). intros H; injection H as <-.
    destruct HW as [Hs Hm Ht Hc Hc1 H1].
    destruct W as [[sp mv st m mw fs] t q tr].
    unfold timing_ok in Ht. sproj.
    destruct (first_show tr) as [s0|] eqn:Hf;
    split; wf_open; rewrite ?Hv, ?Hf in *; wf_open; try discriminate; try lia; auto.
    + destruct Ht as (A & B & C & D). split; [|split; [|split]]; auto.
      intros t1 w1 [E|[E|E]]; try discriminate; eauto.
    + destruct Ht as (A & B & C). split; [|split]; auto.
      intros t1 w1 [E|[E|E]]; try discriminate. eapply C; eauto.
  - rewrite (close_hidden W Hv). intros H; injection H as <-. exact HW.
Qed.

Lemma wf_finish w W W' : wf W -> finish w W = Ok (tt, W') -> wf W'.
Proof.
  intros HW. pose proof (wf_splash _ HW) as Hs'.
  assert (HW0 : wf (with_self (set_finish_scheduled (Some true)) W)).
  { destruct HW as [Hs Hm Ht Hc Hc1 H1].
    destruct W as [[sp mv st m mw fs] t q tr].
    split; wf_open; auto. }
  destruct (start_time (self W)) as [t0|] eqn:Hst.
  2:{ rewrite (finish_before_show w W Hs' Hst). intros H; injection H as <-.
      exact HW0. }
  assert (Hf : exists s0, first_show (trace W) = Some s0 /\ s0 <= t0 <= now W).
  { destruct HW as [_ _ Ht _ _ _]. unfold timing_ok in Ht.
    destruct (first_show (trace W)) as [s0|].
    - exists s0. split; [reflexivity|]. apply Ht. exact Hst.
    - destruct Ht as (_ & E & _). congruence. }
  destruct Hf as [s0 [Hf Hs0]].
  destruct (Z_lt_le_dec (now W - t0) (min_splash_time (self W))) as [Hlt|Hle].
  - rewrite (finish_early w W t0 Hs' Hst Hlt). intros H; injection H as <-.
    destruct HW as [Hs Hm Ht Hc Hc1 H1].
    destruct W as [[sp mv st m mw fs] t q tr].
    split; wf_open; rewrite ?Hf in *; wf_open; try discriminate; try lia; auto.
    destruct Ht as (A & B & C & D). split; [|split; [|split]]; auto.
    + intros d cb Hin. apply in_app_or in Hin. destruct Hin as [Hin|[E|[]]].
      * eauto.
      * injection E as <- <-. lia.
    + intros t1 w1 [E|E]; try discriminate; eauto.
  - rewrite (finish_late w W t0 Hs' Hst Hle).
    apply wf_do_finish; [exact HW0|].
    exists s0. destruct W as [[sp mv st m mw fs] t q tr]. wf_open.
    split; [exact Hf | lia].
Qed.

Lemma count_ev_app p tr1 tr2 :
  count_ev p (tr1 ++ tr2) = (count_ev p tr1 + count_ev p tr2)%nat.
Proof. unfold count_ev. rewrite filter_app, length_app. reflexivity. Qed.

Lemma wf_timer_started W :
  wf W -> (2 <= shows (trace W))%nat -> wf (timer_started W).
Proof.
  intros [Hs Hm Ht Hc Hc1 H1] H2.
  destruct W as [[sp mv st m mw fs] t q tr]. unfold timer_started.
  unfold timing_ok in Ht. sproj.
  destruct (first_show tr) as [s0|] eqn:Hf.
  - assert (Hneg : (m <? 0) = false) by (apply Z.ltb_ge; lia).
    rewrite Hneg.
    split; wf_open; rewrite ?Hf in *; wf_open; try discriminate; try lia; auto.
    destruct Ht as (A & B & C & D). split; [|split; [|split]]; auto.
    + intros d cb Hin. apply in_app_or in Hin. destruct Hin as [Hin|[E|[]]].
      * eauto.
      * injection E as <- <-. lia.
    + intros s E. injection E as <-. lia.
    + intros t1 w1 [E|E]; try discriminate; eauto.
  - apply first_show_shows in Hf. lia.
Qed.

Lemma wf_show W W' : wf W -> show W = Ok (tt, W') -> wf W'.
Proof.
  intros HW. pose proof (wf_splash _ HW) as Hs'.
  destruct (first_show (trace W)) as [s0|] eqn:Hf.
  - (* the splash has been shown before *)
    assert (Hsh : shows (trace W) <> O).
    { intros E. apply first_show_shows in E. congruence. }
    assert (HW1 : wf (splash_shown W)).
    { destruct HW as [Hs Hm Ht Hc Hc1 H1].
      destruct W as [[sp mv st m mw fs] t q tr]. unfold splash_shown.
      split; wf_open; rewrite ?Hf in *; wf_open; try discriminate; try lia;
        auto.
      destruct Ht as (A & B & C & D). split; [|split; [|split]]; auto.
      intros t1 w1 [E|[E|E]]; try discriminate; eauto. }
    destruct (dispatch_due_ok (List.length (timers W)) (splash_shown W))
      as [W2 H2].
    rewrite (show_eq W W2 Hs' H2). intros H; injection H as <-.
    apply wf_timer_started.
    + eapply wf_dispatch_due; [exact HW1 | exact H2].
    + apply frame_dispatch_due in H2.
      destruct (fr_trace _ _ _ _ _ _ H2) as [new [E _]].
      unfold shows in *. rewrite E, count_ev_app.
      destruct W as [[sp mv st m mw fs] t q tr]. unfold splash_shown.
      wf_open. lia.
  - (* first show: nothing is queued yet *)
    assert (Hq : timers W = []).
    { destruct HW as [_ _ Ht _ _ _]. unfold timing_ok in Ht.
      rewrite Hf in Ht. apply Ht. }
    assert (H2 : dispatch_due (List.length (timers W)) (splash_shown W)
                 = Ok (tt, splash_shown W)).
    { rewrite Hq. reflexivity. }
    rewrite (show_eq W _ Hs' H2). intros H; injection H as <-.
    pose proof Hf as Hsh. apply first_show_shows in Hsh.
    destruct HW as [Hs Hm Ht Hc Hc1 H1].
    destruct W as [[sp mv st m mw fs] t q tr].
    unfold timer_started, splash_shown. sproj. subst q.
    assert (Hneg : (m <? 0) = false) by (apply Z.ltb_ge; lia).
    rewrite Hneg.
    split; wf_open; rewrite ?Hf, ?Hsh in *; wf_open; try discriminate;
      try lia; auto.
    destruct Ht as (A & B & C). split; [|split; [|split]]; auto; try lia.
    + intros d cb [E|[]]. injection E as <- <-. lia.
    + intros s E. injection E as <-. lia.
    + intros t1 w1 [E|[E|[E|E]]]; try discriminate. exfalso; eapply C; eauto.
Qed.

Lemma wf_step a W W' : wf W -> step a W = Ok (tt, W') -> wf W'.
Proof.
  intros HW. destruct a; cbn [step]; intros H.
  - eapply wf_show; eauto.
  - eapply wf_finish; eauto.
  - eapply wf_close; eauto.
  - unfold bind in H. rewrite is_finish_scheduled_eq in H.
    injection H as <-. exact HW.
  - injection H as <-. destruct HW as [Hs Hm Ht Hc Hc1 H1].
    destruct W as [[sp mv st m mw fs] t q tr].
    split; wf_open; auto.
  - injection H as <-. destruct HW as [Hs Hm Ht Hc Hc1 H1].
    destruct W as [[sp mv st m mw fs] t q tr].
    unfold timing_ok in Ht. sproj.
    destruct (first_show tr) as [s0|] eqn:Hf;
      split; wf_open; rewrite ?Hf in *; auto.
    destruct Ht as (A & B & C & D). split; [|split; [|split]]; auto; try lia.
    intros s E. specialize (C s E). lia.
  - eapply wf_fire; eauto.
Qed.

Lemma wf_run acts : forall W W', wf W -> run acts W = Ok (tt, W') -> wf W'.
Proof.
  induction acts as [|a acts IH]; intros W W' HW H.
  - injection H as <-. exact HW.
  - cbn [run] in H. apply bind_inv in H. destruct H as [[] [W1 [H1 H2]]].
    eapply IH; [eapply wf_step; [exact HW | exact H1] | exact H2].
Qed.

Lemma construct_eq res t0 :
  construct res t0 =
  Ok (tt, mkWorld
            (mkManager (Some (mkSplash false))
               (Some (mkMovie (spinner_loads res) (Some (32, 32))
                              (spinner_loads res)))
               None 2000 None None)
            t0 []
            (if spinner_loads res then []
             else [(t0, Log "Spinner GIF failed to load!")])).
Proof. destruct res as [l [|]]; reflexivity. Qed.

Lemma wf_construct res t0 W :
  construct res t0 = Ok (tt, W) -> wf W.
Proof.
  rewrite construct_eq. intros H; injection H as <-.
  destruct (spinner_loads res); split; wf_open; try discriminate; auto.
  all: split; [reflexivity|split; [reflexivity|]]; intros t w H;
    cbn in H; intuition discriminate.
Qed.

(** ** [processEvents] leaves no due timer behind *)

Lemma earliest_spec q : forall i d,
  earliest q = Some (i, d) ->
  (exists cb, nth_error q i = Some (d, cb)) /\
  (forall d' cb', In (d', cb') q -> d <= d').
Proof.
  induction q as [|[d0 cb0] q IH]; intros i d H; cbn [earliest] in H.
  - discriminate.
  - destruct (earliest q) as [[i1 d1]|] eqn:E.
    + destruct (IH i1 d1 eq_refl) as [[cb1 Hn] Hmin].
      destruct (d1 <? d0) eqn:Hlt; injection H as <- <-.
      * apply Z.ltb_lt in Hlt. split; [exists cb1; exact Hn|].
        intros d' cb' [Ein|Hin]; [injection Ein as <- <-; lia | eauto].
      * apply Z.ltb_ge in Hlt. split; [exists cb0; reflexivity|].
        intros d' cb' [Ein|Hin]; [injection Ein as <- <-; lia|].
        specialize (Hmin _ _ Hin). lia.
    + injection H as <- <-. split; [exists cb0; reflexivity|].
      intros d' cb' [Ein|Hin]; [injection Ein as <- <-; lia|].
      destruct q as [|[d2 cb2] q']; [destruct Hin|].
      cbn [earliest] in E. destruct (earliest q') as [[? ?]|];
        [destruct (_ <? _)|]; discriminate E.
Qed.

Lemma due_remove t : forall q i x,
  nth_error q i = Some x ->
  List.length (filter (is_due t) q) =
  (List.length (filter (is_due t) (remove_nth i q)) + Nat.b2n (is_due t x))%nat.
Proof.
  induction q as [|a q IH]; intros i x H.
  - destruct i; discriminate H.
  - destruct i as [|i].
    + injection H as ->. unfold remove_nth. cbn.
      destruct (is_due t x); cbn; lia.
    + rewrite remove_nth_cons. cbn in H. specialize (IH i x H).
      cbn. destruct (is_due t a); cbn; lia.
Qed.

(** Firing a timer that is due: the clock stays, the timer is gone, and
    what its callback queues is not due yet. *)
Lemma fire_due i W W' d cb :
  nth_error (timers W) i = Some (d, cb) ->
  d <= now W ->
  fire i W = Ok (tt, W') ->
  now W' = now W /\
  List.length (filter (is_due (now W)) (timers W)) =
  S (List.length (filter (is_due (now W')) (timers W'))).
Proof.
  intros Hn Hd. rewrite (fire_some i W d cb Hn).
  pose proof (due_remove (now W) _ _ _ Hn) as Hr.
  assert (Hdue : is_due (now W) (d, cb) = true)
    by (apply Z.leb_le; exact Hd).
  rewrite Hdue in Hr. cbn [Nat.b2n] in Hr.
  replace (Z.max (now W) d) with (now W) by lia.
  set (Wm := mkWorld _ _ _ _).
  assert (Hpoll : forall V, main_window (self Wm) = None ->
            _check_and_finish Wm = Ok (tt, V) ->
            now V = now W /\
            List.length (filter (is_due (now W)) (timers W)) =
            S (List.length (filter (is_due (now V)) (timers V)))).
  { intros V Hmw H. rewrite (_check_and_finish_unset Wm Hmw) in H.
    injection H as <-. subst Wm. cbn [now timers]. split; [reflexivity|].
    rewrite filter_app, length_app. cbn [filter].
    assert (E : is_due (now W) (now W + 100, CheckAndFinish) = false)
      by (apply Z.leb_gt; cbn [fst]; lia).
    rewrite E. cbn [List.length]. lia. }
  assert (Hfin : forall w V, forall V0, now V0 = now W ->
            timers V0 = remove_nth i (timers W) ->
            _do_finish w V0 = Ok (tt, V) ->
            now V = now W /\
            List.length (filter (is_due (now W)) (timers W)) =
            S (List.length (filter (is_due (now V)) (timers V)))).
  { intros w V V0 Hnow Hq H.
    destruct (visible V0) eqn:Hv.
    - rewrite (_do_finish_visible w V0 Hv) in H. injection H as <-.
      cbn [now timers]. rewrite Hnow, Hq. split; [reflexivity | lia].
    - rewrite (_do_finish_hidden w V0 Hv) in H. injection H as <-.
      destruct V0 as [sf t q tr]. cbn [now timers with_trace] in *.
      subst t q. split; [reflexivity | lia]. }
  destruct cb as [|w]; cbn [run_callback]; intros H.
  - destruct (main_window (self Wm)) as [w|] eqn:Hmw.
    + rewrite (_check_and_finish_set Wm w Hmw) in H.
      eapply Hfin; [| |exact H]; reflexivity.
    + apply Hpoll; [reflexivity | exact H].
  - eapply Hfin; [| |exact H]; reflexivity.
Qed.

Lemma dispatch_due_complete fuel : forall W W',
  (List.length (filter (is_due (now W)) (timers W)) <= fuel)%nat ->
  dispatch_due fuel W = Ok (tt, W') ->
  forall d cb, In (d, cb) (timers W') -> now W' < d.
Proof.
  induction fuel as [|fuel IH]; intros W W' Hfuel H.
  - injection H as <-. intros d cb Hin.
    destruct (Z_lt_le_dec (now W) d) as [Hlt|Hle]; [exact Hlt|].
    exfalso.
    assert (Hf : In (d, cb) (filter (is_due (now W)) (timers W))).
    { apply filter_In. split; [exact Hin|]. apply Z.leb_le. exact Hle. }
    destruct (filter (is_due (now W)) (timers W)); [destruct Hf|].
    cbn in Hfuel. lia.
  - rewrite dispatch_due_step in H.
    destruct (earliest (timers W)) as [[i d0]|] eqn:E.
    + destruct (earliest_spec _ _ _ E) as [[cb0 Hn] Hmin].
      destruct (d0 <=? now W) eqn:Hd.
      * apply Z.leb_le in Hd.
        apply bind_inv in H. destruct H as [[] [W1 [H1 H2]]].
        destruct (fire_due i W W1 d0 cb0 Hn Hd H1) as [Hnow Hlen].
        apply (IH W1 W'); [lia | exact H2].
      * apply Z.leb_gt in Hd. injection H as <-.
        intros d cb Hin. specialize (Hmin _ _ Hin). lia.
    + injection H as <-. intros d cb Hin.
      destruct (timers W) as [|[d1 cb1] q]; [destruct Hin|].
      cbn [earliest] in E. destruct (earliest q) as [[? ?]|];
        [destruct (_ <? _)|]; discriminate E.
Qed.

(** The fuel [app_processEvents] passes is enough: when it returns, every
    timer still queued is due strictly later than the clock reads. *)
Lemma app_processEvents_complete W W' :
  app_processEvents W = Ok (tt, W') ->
  forall d cb, In (d, cb) (timers W') -> now W' < d.
Proof.
  unfold app_processEvents, emit. unfold bind at 1, modify.
  unfold bind at 1, gets. intros H.
  eapply dispatch_due_complete; [|exact H].
  destruct W as [sf t q tr]. cbn [now timers with_trace].
  clear. induction q as [|a q IH]; [cbn; lia|].
  cbn. destruct (is_due t a); cbn; lia.
Qed.

Lemma app_processEvents_ok W : exists W', app_processEvents W = Ok (tt, W').
Proof.
  unfold app_processEvents, emit. unfold bind at 1, modify.
  unfold bind at 1, gets. apply dispatch_due_ok.
Qed.

(** ** Properties of the specification *)

Lemma first_show_In tr : forall s, first_show tr = Some s -> In (s, Tk_show) tr.
Proof.
  induction tr as [|[t e] tr IH]; intros s H; cbn in H.
  - discriminate.
  - destruct (first_show tr) as [s1|].
    + injection H as <-. right. apply IH. reflexivity.
    + destruct e; try discriminate. injection H as <-. left. reflexivity.
Qed.

Lemma construct_constructed res t0 :
  construct res t0 = Ok (tt, constructed res t0).
Proof. unfold constructed. rewrite construct_eq. reflexivity. Qed.

Lemma run_after acts W : run acts W = Ok (tt, after acts W).
Proof.
  unfold after. destruct (run_ok acts W) as [W' H]. rewrite H. reflexivity.
Qed.

(** C1: in every execution of a constructed manager, every entry into
    [_do_finish] (from [finish] or from the [_check_and_finish] polls)
    happens at a clock reading at least [min_splash_time] = 2000 ms after
    the reading at which the splash was first shown; when [show] ran once,
    that reading is the recorded [start_time]. *)
Theorem do_finish_waits_min_display res t0 acts W0 W t w :
  construct res t0 = Ok (tt, W0) ->
  run acts W0 = Ok (tt, W) ->
  In (t, Enter_do_finish w) (trace W) ->
  exists s,
    first_show (trace W) = Some s /\ In (s, Tk_show) (trace W) /\
    min_splash_time (self W) = 2000 /\
    s + min_splash_time (self W) <= t /\
    (shows (trace W) = 1%nat -> start_time (self W) = Some s).
Proof.
  intros Hc Hr Hin.
  assert (HW : wf W).
  { eapply wf_run; [eapply wf_construct; exact Hc | exact Hr]. }
  destruct HW as [Hs Hm Ht Hcnt Hcnt1 H1]. unfold timing_ok in Ht.
  destruct (first_show (trace W)) as [s|] eqn:Hf.
  - exists s. destruct Ht as (A & B & C & D).
    split; [reflexivity|]. split; [apply first_show_In; exact Hf|].
    split; [exact Hm|]. split; [eapply D; exact Hin|]. exact H1.
  - destruct Ht as (_ & _ & D). exfalso. eapply D; exact Hin.
Qed.

Lemma do_finish_waits_min_display_witness :
  exists s,
    first_show (trace (after demo_acts (constructed demo_res 0))) = Some s /\
    In (s, Tk_show) (trace (after demo_acts (constructed demo_res 0))) /\
    min_splash_time (self (after demo_acts (constructed demo_res 0))) = 2000 /\
    s + min_splash_time (self (after demo_acts (constructed demo_res 0))) <= 2000 /\
    (shows (trace (after demo_acts (constructed demo_res 0))) = 1%nat ->
     start_time (self (after demo_acts (constructed demo_res 0))) = Some s).
Proof.
  apply (do_finish_waits_min_display demo_res 0 demo_acts
           (constructed demo_res 0)
           (after demo_acts (constructed demo_res 0)) 2000 7%nat).
  - vm_compute; reflexivity.
  - vm_compute; reflexivity.
  - vm_compute. tauto.
Defined.

(** The bound counts from the first show.  A second call of [show] moves
    [start_time] but leaves the earlier poll queued, so measured from the
    second call [_do_finish] comes after one second here. *)
Remark second_show_moves_start_time :
  first_show (trace demo_shown_twice) = Some 0 /\
  start_time (self demo_shown_twice) = Some 1000 /\
  do_finish_runs (trace demo_shown_twice) = [(2000, 7%nat)].
Proof. vm_compute. repeat split. Qed.

(** ** The polling chain under an exact event loop *)

Lemma cadence_shift d n : cadence d (S n) = cadence (d + 100) n ++ [d].
Proof.
  induction n as [|n IH].
  - cbn [cadence app]. f_equal. lia.
  - change (cadence d (S (S n)))
      with ((d + 100 * Z.of_nat (S n)) :: cadence d (S n)).
    rewrite IH. cbn [cadence app]. f_equal. lia.
Qed.

(** One poll while the main window is unset. *)
Lemma poll_once W d :
  main_window (self W) = None ->
  timers W = [(d, CheckAndFinish)] ->
  now W <= d ->
  dispatch_next W =
  Ok (tt, mkWorld (self W) d [(d + 100, CheckAndFinish)]
            ((d, Log "Main window not set yet, waiting...")
               :: (d, Enter_check_and_finish) :: trace W)).
Proof.
  intros Hmw Hq Hnow. rewrite dispatch_next_eq. rewrite Hq.
  cbn [earliest].
  rewrite (fire_some 0 W d CheckAndFinish) by (rewrite Hq; reflexivity).
  cbn [run_callback]. rewrite _check_and_finish_unset by exact Hmw.
  rewrite Hq. cbn [self now timers trace remove_nth firstn skipn app].
  replace (Z.max (now W) d) with d by lia. reflexivity.
Qed.

Lemma poll_chain n : forall W d,
  main_window (self W) = None ->
  timers W = [(d, CheckAndFinish)] ->
  now W <= d ->
  exists W',
    dispatch_n n W = Ok (tt, W') /\
    self W' = self W /\
    timers W' = [(d + 100 * Z.of_nat n, CheckAndFinish)] /\
    now W' <= d + 100 * Z.of_nat n /\
    check_runs (trace W') = cadence d n ++ check_runs (trace W) /\
    do_finish_runs (trace W') = do_finish_runs (trace W).
Proof.
  induction n as [|n IH]; intros W d Hmw Hq Hnow.
  - exists W. cbn [dispatch_n cadence app]. unfold ret.
    rewrite Hq. repeat split; auto.
    + do 2 f_equal. lia.
    + cbn. lia.
  - cbn [dispatch_n].
    rewrite (bind_ok _ _ _ _ _ (poll_once W d Hmw Hq Hnow)).
    edestruct (IH (mkWorld (self W) d [(d + 100, CheckAndFinish)]
                     ((d, Log "Main window not set yet, waiting...")
                        :: (d, Enter_check_and_finish) :: trace W))
                  (d + 100))
      as [W' (Hn & Hs & Hqn & Hnn & Hcr & Hdr)];
      [exact Hmw | reflexivity | cbn; lia |].
    exists W'. split; [exact Hn|]. split; [exact Hs|].
    split; [rewrite Hqn; do 2 f_equal; lia|].
    split; [lia|]. split.
    + rewrite Hcr. rewrite cadence_shift. rewrite <- app_assoc. reflexivity.
    + rewrite Hdr. reflexivity.
Qed.

Lemma show_constructed res s :
  show (constructed res s) =
  Ok (tt, timer_started (splash_shown (constructed res s))).
Proof.
  apply show_eq.
  - unfold constructed. rewrite construct_eq. discriminate.
  - unfold constructed. rewrite construct_eq. reflexivity.
Qed.

(** C4: a poll that finds [main_window] unset queues the next poll 100 ms
    later and does not enter [_do_finish]; a poll that finds it set enters
    [_do_finish] once and queues nothing.  Under an exact event loop the
    chain started by [show] polls at 2000, 2100, 2200, ... ms after the
    show for as many rounds [n] as the main window stays unset, and the
    first poll after it is set enters [_do_finish] once, after which no
    timer is left. *)
Theorem check_and_finish_polls_until_set res s n w :
  (forall V, main_window (self V) = None ->
     exists V', _check_and_finish V = Ok (tt, V') /\
       timers V' = timers V ++ [(now V + 100, CheckAndFinish)] /\
       do_finish_runs (trace V') = do_finish_runs (trace V)) /\
  (forall V w', main_window (self V) = Some w' ->
     exists V', _check_and_finish V = Ok (tt, V') /\
       timers V' = timers V /\
       do_finish_runs (trace V') = (now V, w') :: do_finish_runs (trace V)) /\
  exists W1 Wn Wf,
    show (constructed res s) = Ok (tt, W1) /\
    timers W1 = [(s + 2000, CheckAndFinish)] /\
    dispatch_n n W1 = Ok (tt, Wn) /\
    main_window (self Wn) = None /\
    timers Wn = [(s + 2000 + 100 * Z.of_nat n, CheckAndFinish)] /\
    check_runs (trace Wn) = cadence (s + 2000) n /\
    do_finish_runs (trace Wn) = [] /\
    dispatch_next (with_self (set_main_window (Some w)) Wn) = Ok (tt, Wf) /\
    check_runs (trace Wf) = cadence (s + 2000) (S n) /\
    do_finish_runs (trace Wf) = [(s + 2000 + 100 * Z.of_nat n, w)] /\
    timers Wf = [] /\
    forall m, dispatch_n m Wf = Ok (tt, Wf).
Proof.
  split; [|split].
  - intros V Hmw. rewrite (_check_and_finish_unset V Hmw).
    eexists. split; [reflexivity|]. split; reflexivity.
  - intros V w' Hmw. rewrite (_check_and_finish_set V w' Hmw).
    set (V1 := with_trace ((now V, Enter_check_and_finish) :: trace V) V).
    destruct (visible V1) eqn:Hv.
    + rewrite (_do_finish_visible w' V1 Hv). eexists.
      split; [reflexivity|]. split; reflexivity.
    + rewrite (_do_finish_hidden w' V1 Hv). eexists.
      split; [reflexivity|]. split; reflexivity.
  - set (W1 := timer_started (splash_shown (constructed res s))).
    assert (Hq1 : timers W1 = [(s + 2000, CheckAndFinish)]).
    { unfold W1, constructed. rewrite construct_eq. reflexivity. }
    assert (Hmw1 : main_window (self W1) = None).
    { unfold W1, constructed. rewrite construct_eq. reflexivity. }
    assert (Hnow1 : now W1 = s).
    { unfold W1, constructed. rewrite construct_eq. reflexivity. }
    assert (Htr1 : check_runs (trace W1) = [] /\ do_finish_runs (trace W1) = []).
    { unfold W1, constructed. rewrite construct_eq.
      destruct (spinner_loads res); split; reflexivity. }
    assert (Hv1 : visible W1 = true).
    { unfold W1, constructed. rewrite construct_eq. reflexivity. }
    destruct Htr1 as [Hcr1 Hdr1].
    destruct (poll_chain n W1 (s + 2000) Hmw1 Hq1 ltac:(lia))
      as [Wn (Hn & Hs & Hqn & Hnn & Hcr & Hdr)].
    rewrite Hcr1, app_nil_r in Hcr. rewrite Hdr1 in Hdr.
    set (Ws := with_self (set_main_window (Some w)) Wn).
    set (d := s + 2000 + 100 * Z.of_nat n) in *.
    set (Wm := mkWorld (self Ws) (Z.max (now Ws) d)
                       (remove_nth 0 (timers Ws)) (trace Ws)).
    assert (Hvm : visible
              (with_trace ((now Wm, Enter_check_and_finish) :: trace Wm) Wm)
            = true).
    { unfold visible in *. subst Wm Ws. destruct Wn as [sf ? ? ?].
      cbn [self] in Hs. subst sf. destruct W1 as [[? ? ? ? ? ?] ? ? ?].
      exact Hv1. }
    eexists W1, Wn, _. fold Ws. fold d.
    split; [apply show_constructed|]. split; [exact Hq1|].
    split; [exact Hn|]. split; [rewrite Hs; exact Hmw1|].
    split; [exact Hqn|]. split; [exact Hcr|]. split; [exact Hdr|].
    split.
    { rewrite dispatch_next_eq.
      assert (Hqs : timers Ws = [(d, CheckAndFinish)])
        by (subst Ws; destruct Wn; exact Hqn).
      rewrite Hqs. cbn [earliest].
      rewrite (fire_some 0 Ws d CheckAndFinish) by (rewrite Hqs; reflexivity).
      cbn [run_callback]. fold Wm.
      rewrite (_check_and_finish_set Wm w)
        by (subst Wm Ws; destruct Wn; reflexivity).
      rewrite (_do_finish_visible w _ Hvm). reflexivity. }
    assert (Hnowm : now Wm = d).
    { subst Wm Ws. destruct Wn. cbn in *. lia. }
    assert (Hqm : timers Wm = []).
    { subst Wm Ws. destruct Wn. cbn in *. rewrite Hqn. reflexivity. }
    assert (Htrm : trace Wm = trace Wn).
    { subst Wm Ws. destruct Wn. reflexivity. }
    cbn [trace timers now with_trace check_runs do_finish_runs].
    rewrite Hnowm, Hqm, Htrm, Hcr, Hdr.
    split; [reflexivity|]. split; [reflexivity|]. split; [reflexivity|].
    induction m as [|m IHm]; [reflexivity|].
    cbn [dispatch_n]. unfold bind at 1. rewrite dispatch_next_eq.
    cbn [timers earliest]. exact IHm.
Qed.

Lemma check_and_finish_polls_until_set_witness :
  exists W1 Wn Wf,
    show (constructed demo_res 0) = Ok (tt, W1) /\
    timers W1 = [(0 + 2000, CheckAndFinish)] /\
    dispatch_n 3 W1 = Ok (tt, Wn) /\
    main_window (self Wn) = None /\
    timers Wn = [(0 + 2000 + 100 * Z.of_nat 3, CheckAndFinish)] /\
    check_runs (trace Wn) = cadence (0 + 2000) 3 /\
    do_finish_runs (trace Wn) = [] /\
    dispatch_next (with_self (set_main_window (Some 7%nat)) Wn) = Ok (tt, Wf) /\
    check_runs (trace Wf) = cadence (0 + 2000) 4 /\
    do_finish_runs (trace Wf) = [(0 + 2000 + 100 * Z.of_nat 3, 7%nat)] /\
    timers Wf = [] /\
    forall m, dispatch_n m Wf = Ok (tt, Wf).
Proof.
  exact (proj2 (proj2 (check_and_finish_polls_until_set demo_res 0 3 7%nat))).
Defined.

(** C2: a call [finish w] made [t] ms after [show] recorded [start_time],
    with [0 < t < min_splash_time], computes
    [remaining = max 0 (min_splash_time - t)], does not enter [_do_finish]
    itself, and queues [_do_finish w] to run [remaining] ms later, which
    is [min_splash_time] after the show; when that timer fires on time,
    [_do_finish w] is entered at exactly that reading. *)
Theorem finish_early_fires_at_min_display W w s :
  splash (self W) <> None ->
  start_time (self W) = Some s ->
  0 < now W - s < min_splash_time (self W) ->
  let remaining :=
    Z.max 0 (min_splash_time (self W) - msecsTo s (now W)) in
  exists W1 W2,
    finish w W = Ok (tt, W1) /\
    remaining = min_splash_time (self W) - (now W - s) /\
    now W + remaining = s + min_splash_time (self W) /\
    now W1 = now W /\
    timers W1 = timers W ++ [(now W + remaining, DoFinish w)] /\
    do_finish_runs (trace W1) = do_finish_runs (trace W) /\
    fire (List.length (timers W)) W1 = Ok (tt, W2) /\
    now W2 = s + min_splash_time (self W) /\
    do_finish_runs (trace W2) =
      (s + min_splash_time (self W), w) :: do_finish_runs (trace W).
Proof.
  intros Hs Hst Ht remaining.
  assert (Hrem : remaining = min_splash_time (self W) - (now W - s)).
  { subst remaining. unfold msecsTo. lia. }
  rewrite (finish_early w W s Hs Hst ltac:(lia)). rewrite Hrem.
  set (W1 := mkWorld _ _ _ _).
  assert (Hnth : nth_error (timers W1) (List.length (timers W))
                 = Some (now W + (min_splash_time (self W) - (now W - s)),
                         DoFinish w)).
  { subst W1. cbn [timers]. rewrite nth_error_app2 by lia.
    rewrite Nat.sub_diag. reflexivity. }
  exists W1. rewrite (fire_some _ W1 _ _ Hnth). cbn [run_callback].
  set (Wm := mkWorld _ _ _ _).
  assert (Hnowm : now Wm = s + min_splash_time (self W)).
  { subst Wm W1. cbn [now]. lia. }
  assert (Htrm : do_finish_runs (trace Wm) = do_finish_runs (trace W)).
  { subst Wm W1. reflexivity. }
  destruct (visible Wm) eqn:Hv.
  - rewrite (_do_finish_visible w Wm Hv). eexists.
    split; [reflexivity|]. split; [reflexivity|]. split; [lia|].
    split; [reflexivity|]. split; [reflexivity|]. split; [reflexivity|].
    split; [reflexivity|]. cbn [now trace do_finish_runs].
    rewrite Hnowm, Htrm. split; reflexivity.
  - rewrite (_do_finish_hidden w Wm Hv). eexists.
    split; [reflexivity|]. split; [reflexivity|]. split; [lia|].
    split; [reflexivity|]. split; [reflexivity|]. split; [reflexivity|].
    split; [reflexivity|]. cbn [now trace with_trace do_finish_runs].
    rewrite Hnowm, Htrm. split; reflexivity.
Qed.

Lemma finish_early_fires_at_min_display_witness :
  exists W1 W2,
    finish 7%nat demo_shown = Ok (tt, W1) /\
    timers W1 = [(2000, CheckAndFinish); (2000, DoFinish 7%nat)] /\
    do_finish_runs (trace W1) = [] /\
    fire 1 W1 = Ok (tt, W2) /\
    now W2 = 2000 /\
    do_finish_runs (trace W2) = [(2000, 7%nat)].
Proof.
  destruct (finish_early_fires_at_min_display demo_shown 7%nat 0)
    as (W1 & W2 & Hf & _ & _ & _ & Hq & Hd & Hfire & Hnow & Hruns).
  - vm_compute; discriminate.
  - vm_compute; reflexivity.
  - vm_compute; split; reflexivity.
  - exists W1, W2.
    split; [exact Hf|]. split; [exact Hq|]. split; [exact Hd|].
    split; [exact Hfire|]. split; [exact Hnow|]. exact Hruns.
Defined.

(** X10: the spec's scenario, for any clock reading [s] of the show and
    any delay [d] below the minimum: under an exact event loop the only
    entry into [_do_finish] is at [s + 2000], however long the loop runs;
    the toolkit is handed the window passed to [finish] and the surface
    ends hidden. *)
Lemma scenario_finish_early res s d w n W :
  0 < Z.of_N d < 2000 ->
  (2 <= n)%nat ->
  run [AShow; AWait d; AFinish w] (constructed res s) = Ok (tt, W) ->
  exists W',
    dispatch_n n W = Ok (tt, W') /\
    do_finish_runs (trace W') = [(s + 2000, w)] /\
    In (s + 2000, Tk_finish w) (trace W') /\
    visible W' = false.
Proof.
  intros Hd Hn. cbn [run step].
  rewrite (bind_ok _ _ _ _ _ (show_constructed res s)).
  unfold bind at 1, modify at 1.
  set (W1 := with_now _ _).
  assert (E1 : W1 = mkWorld
            (mkManager (Some (mkSplash true))
               (Some (mkMovie (spinner_loads res) (Some (32, 32))
                              (spinner_loads res)))
               (Some s) 2000 None None)
            (s + Z.of_N d) [(s + 2000, CheckAndFinish)]
            ((s, Log "Splash screen displayed") :: (s, Tk_processEvents)
               :: (s, Tk_show)
               :: (if spinner_loads res then []
                   else [(s, Log "Spinner GIF failed to load!")]))).
  { subst W1. unfold constructed. rewrite construct_eq. reflexivity. }
  rewrite E1. clear W1 E1. set (W1 := mkWorld _ _ _ _).
  unfold bind at 1.
  rewrite (finish_early w W1 s) by (subst W1; cbn; try discriminate; try reflexivity; lia).
  unfold ret.
  change (min_splash_time (self W1)) with 2000.
  change (now W1) with (s + Z.of_N d).
  replace (s + Z.of_N d + (2000 - (s + Z.of_N d - s))) with (s + 2000) by lia.
  generalize (waiting_msg (2000 - (s + Z.of_N d - s))). intros msg.
  intros H; injection H as <-.
  subst W1. cbn [self now timers trace set_finish_scheduled splash
                 spinner_movie start_time min_splash_time main_window app].
  destruct n as [|[|n]]; try lia. clear Hn.
  cbn [dispatch_n].
  set (W2 := mkWorld _ _ _ _).
  (* first the poll queued by show, then the deferred finish *)
  assert (S1 : dispatch_next W2 =
    Ok (tt, mkWorld (self W2) (s + 2000)
              [(s + 2000, DoFinish w); (s + 2000 + 100, CheckAndFinish)]
              ((s + 2000, Log "Main window not set yet, waiting...")
                 :: (s + 2000, Enter_check_and_finish) :: trace W2))).
  { rewrite dispatch_next_eq. subst W2. cbn [timers earliest].
    rewrite Z.ltb_irrefl.
    erewrite fire_some by reflexivity. cbn [run_callback].
    rewrite _check_and_finish_unset by reflexivity.
    cbn [self now timers trace remove_nth firstn skipn app].
    replace (Z.max (s + Z.of_N d) (s + 2000)) with (s + 2000) by lia.
    reflexivity. }
  rewrite (bind_ok _ _ _ _ _ S1). clear S1.
  set (W3 := mkWorld _ _ _ _).
  assert (S2 : dispatch_next W3 =
    Ok (tt, mkWorld (set_splash (Some (mkSplash false)) (self W3)) (s + 2000)
              [(s + 2000 + 100, CheckAndFinish)]
              ((s + 2000, Log "Splash screen finished, showing main window")
                 :: (s + 2000, Tk_finish w)
                 :: (s + 2000, Enter_do_finish w) :: trace W3))).
  { rewrite dispatch_next_eq. subst W3. cbn [timers earliest].
    assert (E : (s + 2000 + 100 <? s + 2000) = false) by (apply Z.ltb_ge; lia).
    rewrite E.
    erewrite fire_some by reflexivity. cbn [run_callback].
    rewrite _do_finish_visible by reflexivity.
    cbn [self now timers trace remove_nth firstn skipn app].
    replace (Z.max (s + 2000) (s + 2000)) with (s + 2000) by lia.
    reflexivity. }
  rewrite (bind_ok _ _ _ _ _ S2). clear S2.
  set (W4 := mkWorld _ _ _ _).
  destruct (poll_chain n W4 (s + 2000 + 100))
    as [W' (Hn & Hs & Hqn & Hnn & Hcr & Hdr)];
    [reflexivity | reflexivity | cbn; lia |].
  exists W'. split; [exact Hn|].
  split; [rewrite Hdr; subst W4 W3 W2;
          destruct (spinner_loads res); reflexivity|].
  split.
  - eapply frame_dispatch_n in Hn.
    destruct (fr_trace _ _ _ _ _ _ Hn) as [new [E _]]. rewrite E.
    apply in_or_app. right. subst W4. cbn. tauto.
  - unfold visible. rewrite Hs. reflexivity.
Qed.

(** C3, as amended: a call [finish w] made when at least
    [min_splash_time] has elapsed since [show] recorded [start_time]
    enters [_do_finish w] itself, at the clock reading of the call and
    before it returns; it queues no timer, so nothing is left to a later
    tick of the event loop.  A visible surface is handed to the toolkit's
    [finish] then and there. *)
Theorem finish_late_runs_do_finish_in_the_call W w s :
  splash (self W) <> None ->
  start_time (self W) = Some s ->
  min_splash_time (self W) <= now W - s ->
  exists W',
    finish w W = Ok (tt, W') /\
    now W' = now W /\
    timers W' = timers W /\
    do_finish_runs (trace W') = (now W, w) :: do_finish_runs (trace W) /\
    ~ runs_on_next_tick w W W' /\
    (visible W = true ->
     visible W' = false /\ In (now W, Tk_finish w) (trace W')).
Proof.
  intros Hs Hst Hle. rewrite (finish_late w W s Hs Hst Hle).
  set (W0 := with_self (set_finish_scheduled (Some true)) W).
  assert (Hv0 : visible W0 = visible W).
  { subst W0. destruct W as [[sp mv st m mw fs] t q tr]. reflexivity. }
  assert (Hnext : forall W', do_finish_runs (trace W')
                    = (now W, w) :: do_finish_runs (trace W) ->
                  ~ runs_on_next_tick w W W').
  { intros W' E [E' _]. rewrite E in E'.
    apply (f_equal (@List.length _)) in E'. cbn in E'. lia. }
  destruct (visible W0) eqn:Hv.
  - rewrite (_do_finish_visible w W0 Hv). eexists. split; [reflexivity|].
    subst W0. destruct W as [[sp mv st m mw fs] t q tr].
    cbn [now timers trace self with_self do_finish_runs].
    split; [reflexivity|]. split; [reflexivity|]. split; [reflexivity|].
    split; [apply Hnext; reflexivity|].
    intros _. split; [reflexivity|]. right. left. reflexivity.
  - rewrite (_do_finish_hidden w W0 Hv). eexists. split; [reflexivity|].
    subst W0. destruct W as [[sp mv st m mw fs] t q tr].
    cbn [now timers trace self with_self with_trace do_finish_runs].
    split; [reflexivity|]. split; [reflexivity|]. split; [reflexivity|].
    split; [apply Hnext; reflexivity|].
    intros E. rewrite <- Hv0 in E. discriminate E.
Qed.

Lemma finish_late_runs_do_finish_in_the_call_witness :
  exists W',
    finish 7%nat demo_late = Ok (tt, W') /\
    now W' = 2500 /\
    timers W' = [(2000, CheckAndFinish)] /\
    do_finish_runs (trace W') = [(2500, 7%nat)] /\
    visible W' = false /\ In (2500, Tk_finish 7%nat) (trace W').
Proof.
  destruct (finish_late_runs_do_finish_in_the_call demo_late 7%nat 0)
    as (W' & Hf & Hnow & Hq & Hruns & _ & Hvis).
  - vm_compute; discriminate.
  - vm_compute; reflexivity.
  - vm_compute; discriminate.
  - exists W'. split; [exact Hf|]. split; [exact Hnow|].
    split; [exact Hq|]. split; [exact Hruns|].
    apply Hvis. vm_compute; reflexivity.
Defined.

(** C3 as the spec words it fails: two and a half seconds after [show],
    [finish 7] has already entered [_do_finish 7] when it returns, the
    surface is off the screen, and no [_do_finish] timer has been handed
    to the event loop. *)
Lemma finish_late_is_not_deferred :
  exists W',
    finish 7%nat demo_late = Ok (tt, W') /\
    start_time (self demo_late) = Some 0 /\
    min_splash_time (self demo_late) <= now demo_late - 0 /\
    do_finish_runs (trace demo_late) = [] /\
    do_finish_runs (trace W') = [(2500, 7%nat)] /\
    visible W' = false /\
    timers W' = [(2000, CheckAndFinish)] /\
    ~ runs_on_next_tick 7%nat demo_late W'.
Proof.
  eexists. split; [vm_compute; reflexivity|].
  split; [vm_compute; reflexivity|].
  split; [vm_compute; discriminate|].
  split; [vm_compute; reflexivity|].
  split; [vm_compute; reflexivity|].
  split; [vm_compute; reflexivity|].
  split; [vm_compute; reflexivity|].
  intros [E _]. vm_compute in E. discriminate E.
Qed.

(** C5: after [close] the surface is not visible, and from then on, as
    long as [show] is not called again, whatever the host and the timers
    do ([finish], pending [_do_finish] and [_check_and_finish] timers,
    [close], waiting, assigning the main window) raises nothing, leaves
    the surface not visible and makes no toolkit call that shows, closes
    or finishes the splash; a direct [_do_finish w] then only passes
    through.  This holds whether or not [finish] was called before. *)
Theorem close_makes_finish_a_noop W W1 acts w :
  close W = Ok (tt, W1) ->
  forallb (fun a => negb (is_AShow a)) acts = true ->
  visible W1 = false /\
  exists W2 new,
    run acts W1 = Ok (tt, W2) /\
    visible W2 = false /\
    trace W2 = new ++ trace W1 /\
    quiet new = true /\
    _do_finish w W2 =
      Ok (tt, with_trace ((now W2, Enter_do_finish w) :: trace W2) W2).
Proof.
  intros Hc Hacts.
  assert (Hv1 : visible W1 = false).
  { destruct (visible W) eqn:Hv.
    - rewrite (close_visible W Hv) in Hc. injection Hc as <-.
      reflexivity.
    - rewrite (close_hidden W Hv) in Hc. injection Hc as <-. exact Hv. }
  split; [exact Hv1|].
  destruct (run_ok acts W1) as [W2 Hr].
  pose proof (frame_run acts W1 W2 Hr) as F.
  rewrite Hacts in F.
  destruct (fr_trace _ _ _ _ _ _ F) as [new [E Q]].
  pose proof (fr_hidden _ _ _ _ _ _ F eq_refl Hv1) as Hv2.
  exists W2, new. split; [exact Hr|]. split; [exact Hv2|].
  split; [exact E|]. split; [apply Q; [reflexivity | exact Hv1]|].
  apply _do_finish_hidden. exact Hv2.
Qed.

Lemma close_makes_finish_a_noop_witness :
  visible (after [AClose] demo_on_screen) = false /\
  exists W2 new,
    run demo_after_close (after [AClose] demo_on_screen) = Ok (tt, W2) /\
    visible W2 = false /\
    trace W2 = new ++ trace (after [AClose] demo_on_screen) /\
    quiet new = true /\
    _do_finish 7%nat W2 =
      Ok (tt, with_trace ((now W2, Enter_do_finish 7%nat) :: trace W2) W2).
Proof.
  apply (close_makes_finish_a_noop demo_on_screen
           (after [AClose] demo_on_screen) demo_after_close 7%nat).
  - vm_compute; reflexivity.
  - vm_compute; reflexivity.
Defined.

Lemma closings_split tr :
  closings tr = (count_ev is_Tk_close tr + count_ev is_Tk_finish tr)%nat.
Proof.
  unfold closings, count_ev.
  induction tr as [|[t e] tr IH]; [reflexivity|].
  destruct e; cbn in *; lia.
Qed.

Lemma count_ev_In p t e tr :
  In (t, e) tr -> p e = true -> (1 <= count_ev p tr)%nat.
Proof.
  unfold count_ev. induction tr as [|[t1 e1] tr IH]; intros Hin Hp.
  - destruct Hin.
  - destruct Hin as [E|Hin].
    + injection E as -> ->. cbn. rewrite Hp. cbn. lia.
    + specialize (IH Hin Hp). cbn. destruct (p e1); cbn; lia.
Qed.

(** C6: in every execution of a constructed manager the toolkit is asked
    to take the surface off the screen at most as often as it was asked to
    show it: the number of [close]/[finish] calls on the splash plus one
    if it is still visible never exceeds the number of [show] calls.
    When it was shown once, it is off the screen exactly when it has been
    closed exactly once, and never both by [close] and by [_do_finish].
    Whichever of the two runs on a surface that is no longer visible makes
    no toolkit call; each closes a visible surface. *)
Theorem splash_closed_exactly_once res t0 acts W0 W w :
  construct res t0 = Ok (tt, W0) ->
  run acts W0 = Ok (tt, W) ->
  (closings (trace W) + Nat.b2n (visible W) <= shows (trace W))%nat /\
  (shows (trace W) = 1%nat ->
   (closings (trace W) + Nat.b2n (visible W) = 1)%nat /\
   ~ (exists t1 t2 w', In (t1, Tk_close) (trace W) /\
                       In (t2, Tk_finish w') (trace W))) /\
  (visible W = false ->
   close W = Ok (tt, W) /\
   _do_finish w W =
     Ok (tt, with_trace ((now W, Enter_do_finish w) :: trace W) W)) /\
  (visible W = true ->
   exists Wc Wf,
     close W = Ok (tt, Wc) /\ visible Wc = false /\
     closings (trace Wc) = S (closings (trace W)) /\
     _do_finish w W = Ok (tt, Wf) /\ visible Wf = false /\
     closings (trace Wf) = S (closings (trace W))).
Proof.
  intros Hc Hr.
  assert (HW : wf W).
  { eapply wf_run; [eapply wf_construct; exact Hc | exact Hr]. }
  destruct HW as [Hs Hm Ht Hcnt Hcnt1 H1].
  split; [exact Hcnt|]. split; [|split].
  - intros Hone. split; [lia|].
    intros (t1 & t2 & w' & Hin1 & Hin2).
    pose proof (count_ev_In is_Tk_close _ _ _ Hin1 eq_refl).
    pose proof (count_ev_In is_Tk_finish _ _ _ Hin2 eq_refl).
    rewrite closings_split in Hcnt. lia.
  - intros Hv. split; [apply close_hidden; exact Hv|].
    apply _do_finish_hidden; exact Hv.
  - intros Hv. rewrite (close_visible W Hv), (_do_finish_visible w W Hv).
    eexists _, _. split; [reflexivity|].
    split; [reflexivity|]. split; [reflexivity|].
    split; [reflexivity|]. split; reflexivity.
Qed.

Lemma splash_closed_exactly_once_witness :
  (closings (trace demo_done) + Nat.b2n (visible demo_done) = 1)%nat /\
  close demo_done = Ok (tt, demo_done) /\
  _do_finish 7%nat demo_done =
    Ok (tt, with_trace ((now demo_done, Enter_do_finish 7%nat)
                          :: trace demo_done) demo_done).
Proof.
  destruct (splash_closed_exactly_once demo_res 0 demo_acts
              (constructed demo_res 0) demo_done 7%nat)
    as (_ & Hone & Hhid & _).
  - vm_compute; reflexivity.
  - vm_compute; reflexivity.
  - split.
    + apply Hone. vm_compute; reflexivity.
    + apply Hhid. vm_compute; reflexivity.
Defined.

Lemma finish_sets_flag w W W' :
  splash (self W) <> None ->
  finish w W = Ok (tt, W') ->
  _finish_scheduled (self W') = Some true.
Proof.
  intros Hs.
  assert (H0 : _finish_scheduled
                 (self (with_self (set_finish_scheduled (Some true)) W))
               = Some true).
  { destruct W as [[sp mv st m mw fs] t q tr]. reflexivity. }
  destruct (start_time (self W)) as [t0|] eqn:Hst.
  2:{ rewrite (finish_before_show w W Hs Hst). intros H; injection H as <-.
      exact H0. }
  destruct (Z_lt_le_dec (now W - t0) (min_splash_time (self W))) as [Hlt|Hle].
  - rewrite (finish_early w W t0 Hs Hst Hlt). intros H; injection H as <-.
    destruct W as [[sp mv st m mw fs] t q tr]. reflexivity.
  - rewrite (finish_late w W t0 Hs Hst Hle). intros H.
    apply frame_do_finish in H.
    rewrite (fr_fs _ _ _ _ _ _ H eq_refl). exact H0.
Qed.

(** C7: in every execution of a constructed manager,
    [is_finish_scheduled] returns [False] as long as [finish] has not been
    called (the attribute does not exist yet), and returns [True] right
    after any call of [finish], whatever the clock reads. *)
Theorem is_finish_scheduled_tracks_finish res t0 acts W0 W w :
  construct res t0 = Ok (tt, W0) ->
  run acts W0 = Ok (tt, W) ->
  (forallb (fun a => negb (is_AFinish a)) acts = true ->
   _finish_scheduled (self W) = None /\
   is_finish_scheduled W = Ok (false, W)) /\
  exists W',
    finish w W = Ok (tt, W') /\
    is_finish_scheduled W' = Ok (true, W').
Proof.
  intros Hc Hr.
  assert (HW : wf W).
  { eapply wf_run; [eapply wf_construct; exact Hc | exact Hr]. }
  split.
  - intros Hacts. pose proof (frame_run acts W0 W Hr) as F.
    rewrite Hacts in F. pose proof (fr_fs _ _ _ _ _ _ F eq_refl) as E.
    assert (E0 : _finish_scheduled (self W0) = None).
    { rewrite construct_eq in Hc. injection Hc as <-. reflexivity. }
    rewrite E0 in E. split; [exact E|].
    rewrite is_finish_scheduled_eq, E. reflexivity.
  - destruct (finish_ok w W) as [W' Hf]. exists W'. split; [exact Hf|].
    rewrite is_finish_scheduled_eq.
    rewrite (finish_sets_flag w W W' (wf_splash _ HW) Hf). reflexivity.
Qed.

Lemma is_finish_scheduled_tracks_finish_witness :
  (_finish_scheduled (self demo_shown) = None /\
   is_finish_scheduled demo_shown = Ok (false, demo_shown)) /\
  exists W',
    finish 7%nat demo_shown = Ok (tt, W') /\
    is_finish_scheduled W' = Ok (true, W').
Proof.
  destruct (is_finish_scheduled_tracks_finish demo_res 0 [AShow; AWait 500]
              (constructed demo_res 0) demo_shown 7%nat)
    as (Hbefore & Hafter).
  - vm_compute; reflexivity.
  - vm_compute; reflexivity.
  - split; [apply Hbefore; reflexivity | exact Hafter].
Defined.

(** C8: when the spinner GIF does not load, [SplashManager(app)] raises
    nothing: it logs one line, keeps the invalid movie (which stays
    stopped) and creates the splash screen, which [show] then puts on
    screen as usual. *)
Theorem construction_survives_missing_spinner logo t0 :
  exists W W',
    construct (mkResources logo false) t0 = Ok (tt, W) /\
    trace W = [(t0, Log "Spinner GIF failed to load!")] /\
    splash (self W) = Some (mkSplash false) /\
    spinner_movie (self W) = Some (mkMovie false (Some (32, 32)) false) /\
    show W = Ok (tt, W') /\
    visible W' = true /\
    start_time (self W') = Some t0.
Proof.
  eexists _, _. split.
  - rewrite construct_eq. reflexivity.
  - cbn [trace self splash spinner_movie spinner_loads].
    split; [reflexivity|]. split; [reflexivity|]. split; [reflexivity|].
    split.
    + apply show_eq; [discriminate | reflexivity].
    + split; reflexivity.
Qed.

(** C9: a call [finish w] on a constructed manager that has not been
    shown ([start_time] is still unset) creates the [_finish_scheduled]
    attribute with value [True] and does nothing else: it does not enter
    [_do_finish], queues no timer and makes no toolkit call, so the splash
    is not handed to the main window by that call. *)
Theorem finish_before_show_only_sets_flag res t0 acts W0 W w :
  construct res t0 = Ok (tt, W0) ->
  forallb (fun a => negb (is_AShow a)) acts = true ->
  run acts W0 = Ok (tt, W) ->
  start_time (self W) = None /\
  exists W',
    finish w W = Ok (tt, W') /\
    W' = with_self (set_finish_scheduled (Some true)) W /\
    _finish_scheduled (self W') = Some true /\
    timers W' = [] /\
    trace W' = trace W /\
    do_finish_runs (trace W') = [] /\
    visible W' = false.
Proof.
  intros Hc Hacts Hr.
  assert (HW : wf W).
  { eapply wf_run; [eapply wf_construct; exact Hc | exact Hr]. }
  pose proof (frame_run acts W0 W Hr) as F. rewrite Hacts in F.
  assert (Hst : start_time (self W) = None).
  { rewrite (fr_st _ _ _ _ _ _ F eq_refl).
    rewrite construct_eq in Hc. injection Hc as <-. reflexivity. }
  assert (Hv : visible W = false).
  { apply (fr_hidden _ _ _ _ _ _ F eq_refl).
    rewrite construct_eq in Hc. injection Hc as <-. reflexivity. }
  split; [exact Hst|].
  destruct HW as [Hs Hm Ht Hcnt Hcnt1 H1]. unfold timing_ok in Ht.
  destruct (first_show (trace W)) as [s0|] eqn:Hf.
  - (* a manager that was never shown has no show in its trace *)
    exfalso. apply first_show_In in Hf.
    destruct (fr_trace _ _ _ _ _ _ F) as [new [E Q]].
    assert (Hv0 : visible W0 = false).
    { rewrite construct_eq in Hc. injection Hc as <-. reflexivity. }
    specialize (Q eq_refl Hv0). rewrite E in Hf.
    apply in_app_or in Hf. destruct Hf as [Hin|Hin].
    + unfold quiet in Q. rewrite forallb_forall in Q.
      specialize (Q _ Hin). discriminate Q.
    + rewrite construct_eq in Hc. injection Hc as <-.
      cbn [trace] in Hin. destruct (spinner_loads res); cbn in Hin;
        intuition discriminate.
  - destruct Ht as (Hq & _ & Hno).
    rewrite (finish_before_show w W Hs Hst). eexists.
    split; [reflexivity|]. split; [reflexivity|].
    destruct W as [[sp mv st m mw fs] t q tr].
    cbn [self timers trace with_self set_finish_scheduled
         _finish_scheduled] in *.
    split; [reflexivity|]. split; [exact Hq|]. split; [reflexivity|].
    split; [|exact Hv].
    clear - Hno. induction tr as [|[t1 e] tr IH]; [reflexivity|].
    assert (IH' : do_finish_runs tr = []).
    { apply IH. intros t2 w2 Hin. apply (Hno t2 w2). right. exact Hin. }
    destruct e; cbn [do_finish_runs]; try exact IH'.
    exfalso. apply (Hno t1 w). left. reflexivity.
Qed.

Lemma finish_before_show_only_sets_flag_witness :
  start_time (self demo_not_shown) = None /\
  exists W',
    finish 7%nat demo_not_shown = Ok (tt, W') /\
    W' = with_self (set_finish_scheduled (Some true)) demo_not_shown /\
    _finish_scheduled (self W') = Some true /\
    timers W' = [] /\
    trace W' = trace demo_not_shown /\
    do_finish_runs (trace W') = [] /\
    visible W' = false.
Proof.
  apply (finish_before_show_only_sets_flag demo_res 0 [AWait 300; AClose]
           (constructed demo_res 0) demo_not_shown 7%nat).
  - vm_compute; reflexivity.
  - reflexivity.
  - vm_compute; reflexivity.
Defined.

(** C10: [finish] never assigns [main_window]: after [finish w] the
    attribute holds what it held before.  So while nobody else assigns it,
    it stays unset through any further calls of [show], [finish], [close]
    and any firing of timers, every poll re-queues itself, and the number
    of pending [_check_and_finish] timers never goes down: the polling
    chain does not end. *)
Theorem finish_never_assigns_main_window W w W1 acts W2 :
  finish w W = Ok (tt, W1) ->
  forallb (fun a => negb (is_ASetMainWindow a)) acts = true ->
  run acts W1 = Ok (tt, W2) ->
  main_window (self W1) = main_window (self W) /\
  (main_window (self W) = None ->
   main_window (self W2) = None /\
   (pending_checks (timers W) <= pending_checks (timers W1))%nat /\
   (pending_checks (timers W1) <= pending_checks (timers W2))%nat).
Proof.
  intros Hf Hacts Hr.
  pose proof (frame_finish w W W1 Hf) as F1.
  pose proof (frame_run acts W1 W2 Hr) as F2. rewrite Hacts in F2.
  pose proof (fr_mw _ _ _ _ _ _ F1 eq_refl) as E1.
  split; [exact E1|].
  intros Hnone.
  assert (Hnone1 : main_window (self W1) = None) by congruence.
  split; [rewrite (fr_mw _ _ _ _ _ _ F2 eq_refl); exact Hnone1|].
  split.
  - apply (fr_checks _ _ _ _ _ _ F1 eq_refl Hnone).
  - apply (fr_checks _ _ _ _ _ _ F2 eq_refl Hnone1).
Qed.

Lemma finish_never_assigns_main_window_witness :
  main_window (self (after [AFinish 7%nat] demo_shown))
    = main_window (self demo_shown) /\
  main_window
    (self (after demo_unassigned (after [AFinish 7%nat] demo_shown))) = None /\
  (1 <= pending_checks
          (timers (after demo_unassigned (after [AFinish 7%nat] demo_shown))))%nat.
Proof.
  destruct (finish_never_assigns_main_window demo_shown 7%nat
              (after [AFinish 7%nat] demo_shown) demo_unassigned
              (after demo_unassigned (after [AFinish 7%nat] demo_shown)))
    as (Hsame & Hchain).
  - vm_compute; reflexivity.
  - reflexivity.
  - vm_compute; reflexivity.
  - split; [exact Hsame|].
    destruct Hchain as (Hnone & H1 & H2); [vm_compute; reflexivity|].
    split; [exact Hnone|].
    assert (H0 : (1 <= pending_checks (timers demo_shown))%nat)
      by (vm_compute; lia).
    lia.
Defined.

(** ** Further properties of the methods *)

(** X1: no method raises, whatever state the object is in -- also with
    [splash] or [spinner_movie] set to [None], where an unguarded method
    call would raise [AttributeError]: every sequence of public calls,
    attribute assignments and timer firings returns normally, and so do
    the two private callbacks called directly and the constructor. *)
Theorem no_call_raises W acts w :
  (exists W', run acts W = Ok (tt, W')) /\
  (exists W', _do_finish w W = Ok (tt, W')) /\
  (exists W', _check_and_finish W = Ok (tt, W')) /\
  (exists b, is_finish_scheduled W = Ok (b, W)) /\
  (forall res t0, exists W0, construct res t0 = Ok (tt, W0)).
Proof.
  split; [apply run_ok|].
  split; [apply _do_finish_ok|].
  split; [apply _check_and_finish_ok|].
  split.
  - rewrite is_finish_scheduled_eq. eexists. reflexivity.
  - intros res t0. rewrite construct_eq. eexists. reflexivity.
Qed.

(** X2: while there is no splash object, [show], [close] and [finish]
    return without changing anything -- [finish] does not even create
    [_finish_scheduled], so [is_finish_scheduled] keeps answering as
    before -- and [_do_finish] only passes through. *)
Theorem absent_splash_makes_methods_noops W w :
  splash (self W) = None ->
  show W = Ok (tt, W) /\
  close W = Ok (tt, W) /\
  finish w W = Ok (tt, W) /\
  _do_finish w W =
    Ok (tt, with_trace ((now W, Enter_do_finish w) :: trace W) W) /\
  (forall W', finish w W = Ok (tt, W') ->
              is_finish_scheduled W' =
              Ok (match _finish_scheduled (self W) with
                  | Some b => b
                  | None => false
                  end, W')).
Proof.
  intros Hs.
  assert (Hv : visible W = false) by (unfold visible; rewrite Hs; reflexivity).
  split; [apply show_no_splash; exact Hs|].
  split; [apply close_hidden; exact Hv|].
  split; [apply finish_no_splash; exact Hs|].
  split; [apply _do_finish_hidden; exact Hv|].
  intros W' H. rewrite (finish_no_splash w W Hs) in H. injection H as <-.
  apply is_finish_scheduled_eq.
Qed.

Lemma absent_splash_makes_methods_noops_witness :
  show (new_world 0) = Ok (tt, new_world 0) /\
  close (new_world 0) = Ok (tt, new_world 0) /\
  finish 7%nat (new_world 0) = Ok (tt, new_world 0).
Proof.
  destruct (absent_splash_makes_methods_noops (new_world 0) 7%nat)
    as (Hshow & Hclose & Hfinish & _).
  - reflexivity.
  - split; [exact Hshow|]. split; [exact Hclose | exact Hfinish].
Defined.

Lemma flag_kept_by_step a W W' :
  _finish_scheduled (self W) = Some true ->
  step a W = Ok (tt, W') ->
  _finish_scheduled (self W') = Some true.
Proof.
  intros Hflag H. destruct a as [|w| | |o|d|i].
  2:{ cbn [step] in H. destruct (splash (self W)) as [s|] eqn:Hs.
      - eapply finish_sets_flag; [|exact H]. congruence.
      - rewrite (finish_no_splash w W Hs) in H. injection H as <-.
        exact Hflag. }
  all: apply frame_step in H;
       rewrite (fr_fs _ _ _ _ _ _ H eq_refl); exact Hflag.
Qed.

(** X3: [_finish_scheduled] is never cleared.  Once it is [True],
    [is_finish_scheduled] answers [True] after any further calls, timer
    firings and waits -- also after the splash has been finished, closed
    or shown again. *)
Theorem finish_scheduled_stays_true acts : forall W W',
  _finish_scheduled (self W) = Some true ->
  run acts W = Ok (tt, W') ->
  _finish_scheduled (self W') = Some true /\
  is_finish_scheduled W' = Ok (true, W').
Proof.
  induction acts as [|a acts IH]; intros W W' Hflag H.
  - injection H as <-. split; [exact Hflag|].
    rewrite is_finish_scheduled_eq, Hflag. reflexivity.
  - cbn [run] in H. apply bind_inv in H. destruct H as [[] [W1 [H1 H2]]].
    apply (IH W1 W'); [|exact H2].
    eapply flag_kept_by_step; [exact Hflag | exact H1].
Qed.

Lemma finish_scheduled_stays_true_witness :
  _finish_scheduled (self (after demo_later demo_flagged)) = Some true /\
  is_finish_scheduled (after demo_later demo_flagged)
    = Ok (true, after demo_later demo_flagged).
Proof.
  apply (finish_scheduled_stays_true demo_later demo_flagged).
  - vm_compute; reflexivity.
  - vm_compute; reflexivity.
Defined.

Lemma close_keeps_the_rest W W' :
  close W = Ok (tt, W') ->
  timers W' = timers W /\ now W' = now W /\
  start_time (self W') = start_time (self W) /\
  main_window (self W') = main_window (self W) /\
  _finish_scheduled (self W') = _finish_scheduled (self W) /\
  visible W' = false.
Proof.
  destruct (visible W) eqn:Hv.
  - rewrite (close_visible W Hv). intros H; injection H as <-.
    destruct W as [[sp mv st m mw fs] t q tr]. repeat split.
  - rewrite (close_hidden W Hv). intros H; injection H as <-.
    repeat split. exact Hv.
Qed.

(** X4: [close] cancels no timer.  It leaves the timer queue, the clock,
    [start_time], [main_window] and [_finish_scheduled] as they were and
    only hides the surface; so after [show] and an early [close], with
    the main window never assigned, the polling chain keeps polling every
    100 ms for as many rounds as the event loop runs, on a surface that
    stays hidden, without ever entering [_do_finish]. *)
Theorem close_leaves_polling_running res s n :
  (forall V V', close V = Ok (tt, V') ->
     timers V' = timers V /\ now V' = now V /\
     start_time (self V') = start_time (self V) /\
     main_window (self V') = main_window (self V) /\
     _finish_scheduled (self V') = _finish_scheduled (self V) /\
     visible V' = false) /\
  exists W1 Wc Wn,
    show (constructed res s) = Ok (tt, W1) /\
    close W1 = Ok (tt, Wc) /\
    timers Wc = [(s + 2000, CheckAndFinish)] /\
    dispatch_n n Wc = Ok (tt, Wn) /\
    timers Wn = [(s + 2000 + 100 * Z.of_nat n, CheckAndFinish)] /\
    check_runs (trace Wn) = cadence (s + 2000) n /\
    do_finish_runs (trace Wn) = [] /\
    visible Wn = false.
Proof.
  split; [exact close_keeps_the_rest|].
  set (W1 := timer_started (splash_shown (constructed res s))).
  assert (Hv1 : visible W1 = true).
  { unfold W1, constructed. rewrite construct_eq. reflexivity. }
  destruct (close_ok W1) as [Wc Hc].
  destruct (close_keeps_the_rest W1 Wc Hc) as (Hq & Hnow & _ & Hmw & _ & Hvc).
  assert (Hq1 : timers W1 = [(s + 2000, CheckAndFinish)]).
  { unfold W1, constructed. rewrite construct_eq. reflexivity. }
  assert (Hmw1 : main_window (self W1) = None).
  { unfold W1, constructed. rewrite construct_eq. reflexivity. }
  assert (Hnow1 : now W1 = s).
  { unfold W1, constructed. rewrite construct_eq. reflexivity. }
  assert (Htrc : check_runs (trace Wc) = [] /\ do_finish_runs (trace Wc) = []).
  { rewrite (close_visible W1 Hv1) in Hc. injection Hc as <-.
    unfold W1, constructed. rewrite construct_eq.
    destruct (spinner_loads res); split; reflexivity. }
  destruct Htrc as [Hcr0 Hdr0].
  destruct (poll_chain n Wc (s + 2000))
    as [Wn (Hn & Hs & Hqn & Hnn & Hcr & Hdr)].
  - rewrite Hmw. exact Hmw1.
  - rewrite Hq. exact Hq1.
  - rewrite Hnow, Hnow1. lia.
  - exists W1, Wc, Wn.
    split; [apply show_constructed|]. split; [exact Hc|].
    split; [rewrite Hq; exact Hq1|]. split; [exact Hn|].
    split; [exact Hqn|].
    split; [rewrite Hcr, Hcr0; apply app_nil_r|].
    split; [rewrite Hdr; exact Hdr0|].
    unfold visible in *. rewrite Hs. exact Hvc.
Qed.

(** X5: [finish] does not consult [_finish_scheduled].  Two calls made
    before the minimum display time has elapsed (also with no time elapsed
    at all) each queue a [_do_finish] timer, both due [min_splash_time]
    after [start_time], although [is_finish_scheduled] already answers
    [True] after the first; neither call enters [_do_finish]. *)
Theorem finish_twice_queues_two_timers W w1 w2 s :
  splash (self W) <> None ->
  start_time (self W) = Some s ->
  now W - s < min_splash_time (self W) ->
  exists W1 W2,
    finish w1 W = Ok (tt, W1) /\
    is_finish_scheduled W1 = Ok (true, W1) /\
    finish w2 W1 = Ok (tt, W2) /\
    timers W2 =
      timers W ++ [(s + min_splash_time (self W), DoFinish w1);
                   (s + min_splash_time (self W), DoFinish w2)] /\
    do_finish_runs (trace W2) = do_finish_runs (trace W).
Proof.
  intros Hs Hst Hlt.
  rewrite (finish_early w1 W s Hs Hst Hlt).
  set (W1 := mkWorld _ _ _ _).
  assert (Hs1 : splash (self W1) <> None).
  { subst W1. destruct W as [[sp mv st m mw fs] t q tr]. exact Hs. }
  assert (Hst1 : start_time (self W1) = Some s).
  { subst W1. destruct W as [[sp mv st m mw fs] t q tr]. exact Hst. }
  assert (Hm1 : min_splash_time (self W1) = min_splash_time (self W)).
  { subst W1. destruct W as [[sp mv st m mw fs] t q tr]. reflexivity. }
  assert (Hlt1 : now W1 - s < min_splash_time (self W1)).
  { rewrite Hm1. subst W1. cbn [now]. exact Hlt. }
  exists W1. rewrite (finish_early w2 W1 s Hs1 Hst1 Hlt1).
  eexists. split; [reflexivity|].
  split.
  { rewrite is_finish_scheduled_eq. subst W1.
    destruct W as [[sp mv st m mw fs] t q tr]. reflexivity. }
  split; [reflexivity|].
  rewrite Hm1. subst W1. cbn [timers now trace do_finish_runs].
  split; [|reflexivity].
  rewrite <- app_assoc. cbn [app]. do 2 f_equal.
  - f_equal. lia.
  - do 2 f_equal. lia.
Qed.

Lemma finish_twice_queues_two_timers_witness :
  exists W1 W2,
    finish 7%nat demo_on_screen = Ok (tt, W1) /\
    is_finish_scheduled W1 = Ok (true, W1) /\
    finish 8%nat W1 = Ok (tt, W2) /\
    timers W2 =
      [(2000, CheckAndFinish); (2000, DoFinish 7%nat);
       (2000, DoFinish 8%nat)] /\
    do_finish_runs (trace W2) = [].
Proof.
  destruct (finish_twice_queues_two_timers demo_on_screen 7%nat 8%nat 0)
    as (W1 & W2 & H1 & Hflag & H2 & Hq & Hruns).
  - vm_compute; discriminate.
  - vm_compute; reflexivity.
  - vm_compute; reflexivity.
  - exists W1, W2. split; [exact H1|]. split; [exact Hflag|].
    split; [exact H2|]. split; [exact Hq | exact Hruns].
Defined.

Lemma dispatch_due_idle fuel W :
  (forall d cb, In (d, cb) (timers W) -> now W < d) ->
  dispatch_due fuel W = Ok (tt, W).
Proof.
  intros Hidle. destruct fuel as [|fuel]; [reflexivity|].
  rewrite dispatch_due_step.
  destruct (earliest (timers W)) as [[i d]|] eqn:E; [|reflexivity].
  destruct (earliest_spec _ _ _ E) as [[cb Hn] _].
  apply nth_error_In in Hn. specialize (Hidle _ _ Hn).
  assert (Hd : (d <=? now W) = false) by (apply Z.leb_gt; exact Hidle).
  rewrite Hd. reflexivity.
Qed.

(** X6: [show] has no guard against being called again.  Whenever no
    queued timer is due yet, [show] puts the surface on screen -- also
    one that was already closed or finished -- sets [start_time] to the
    current clock reading without advancing the clock, and adds one more
    [_check_and_finish] timer [min_splash_time] later behind the timers
    already queued, which all stay. *)
Theorem show_restarts_whenever_called W :
  splash (self W) <> None ->
  0 <= min_splash_time (self W) ->
  (forall d cb, In (d, cb) (timers W) -> now W < d) ->
  exists W',
    show W = Ok (tt, W') /\
    visible W' = true /\
    start_time (self W') = Some (now W) /\
    now W' = now W /\
    timers W' =
      timers W ++ [(now W + min_splash_time (self W), CheckAndFinish)] /\
    main_window (self W') = main_window (self W) /\
    _finish_scheduled (self W') = _finish_scheduled (self W) /\
    shows (trace W') = S (shows (trace W)).
Proof.
  intros Hs Hm Hidle.
  assert (Hd : dispatch_due (List.length (timers W)) (splash_shown W)
               = Ok (tt, splash_shown W)).
  { apply dispatch_due_idle. destruct W as [sf t q tr]. exact Hidle. }
  rewrite (show_eq W _ Hs Hd). eexists. split; [reflexivity|].
  assert (Hq : timers (timer_started (splash_shown W)) =
               timers W ++ [(now W + min_splash_time (self W), CheckAndFinish)]).
  { rewrite timers_timer_started;
      destruct W as [[sp mv st m mw fs] t q tr]; [reflexivity | exact Hm]. }
  rewrite Hq.
  destruct W as [[sp mv st m mw fs] t q tr].
  repeat split.
Qed.

Lemma show_restarts_whenever_called_witness :
  visible demo_done = false /\
  exists W',
    show demo_done = Ok (tt, W') /\
    visible W' = true /\
    start_time (self W') = Some 2000 /\
    timers W' = [(4000, CheckAndFinish)] /\
    shows (trace W') = 2%nat.
Proof.
  split; [vm_compute; reflexivity|].
  destruct (show_restarts_whenever_called demo_done)
    as (W' & Hshow & Hv & Hst & _ & Hq & _ & _ & Hn).
  - vm_compute; discriminate.
  - vm_compute; discriminate.
  - intros d cb Hin. vm_compute in Hin. destruct Hin.
  - exists W'. split; [exact Hshow|]. split; [exact Hv|].
    split; [exact Hst|]. split; [exact Hq | exact Hn].
Defined.

(** X7: what an execution can and cannot change.  No call, timer or wait
    changes [min_splash_time], replaces the splash object by [None] (or
    the reverse), sets the clock back or removes a trace entry;
    [start_time] changes only in [show], [_finish_scheduled] only in
    [finish], and [main_window] only by assignment from outside. *)
Theorem methods_touch_only_their_attributes acts W W' :
  run acts W = Ok (tt, W') ->
  min_splash_time (self W') = min_splash_time (self W) /\
  truthy (splash (self W')) = truthy (splash (self W)) /\
  now W <= now W' /\
  (exists new, trace W' = new ++ trace W) /\
  (forallb (fun a => negb (is_AShow a)) acts = true ->
   start_time (self W') = start_time (self W)) /\
  (forallb (fun a => negb (is_AFinish a)) acts = true ->
   _finish_scheduled (self W') = _finish_scheduled (self W)) /\
  (forallb (fun a => negb (is_ASetMainWindow a)) acts = true ->
   main_window (self W') = main_window (self W)).
Proof.
  intros H. apply frame_run in H.
  destruct H as [Hmin Hsp Hnow [new [Htr _]] Hfs Hst Hmw _ _].
  split; [exact Hmin|]. split; [exact Hsp|]. split; [exact Hnow|].
  split; [exists new; exact Htr|].
  split; [exact Hst|]. split; [exact Hfs | exact Hmw].
Qed.

Lemma methods_touch_only_their_attributes_witness :
  min_splash_time (self (after demo_later demo_flagged)) = 2000 /\
  truthy (splash (self (after demo_later demo_flagged))) = true /\
  500 <= now (after demo_later demo_flagged) /\
  main_window (self (after demo_later demo_flagged)) = None.
Proof.
  destruct (methods_touch_only_their_attributes demo_later demo_flagged
              (after demo_later demo_flagged))
    as (Hmin & Hsp & Hnow & _ & _ & _ & Hmw).
  - vm_compute; reflexivity.
  - split; [exact Hmin|]. split; [exact Hsp|]. split; [exact Hnow|].
    apply Hmw. reflexivity.
Defined.

(** X8: what [SplashManager(app)] leaves behind, whether or not the logo
    loads: a splash screen that is not yet visible, no timer, no
    [start_time], no main window, [min_splash_time] 2000,
    [is_finish_scheduled] answering [False], and a spinner movie scaled
    to 32 x 32 that is running exactly when the GIF loaded; the failure
    line is logged exactly when it did not. *)
Theorem construction_contract res t0 :
  exists W,
    construct res t0 = Ok (tt, W) /\
    now W = t0 /\
    splash (self W) = Some (mkSplash false) /\
    timers W = [] /\
    start_time (self W) = None /\
    main_window (self W) = None /\
    min_splash_time (self W) = 2000 /\
    is_finish_scheduled W = Ok (false, W) /\
    spinner_movie (self W) =
      Some (mkMovie (spinner_loads res) (Some (32, 32)) (spinner_loads res)) /\
    (spinner_loads res = true <-> trace W = []) /\
    (spinner_loads res = false <->
     trace W = [(t0, Log "Spinner GIF failed to load!")]).
Proof.
  rewrite construct_eq. eexists. split; [reflexivity|].
  cbn [now self timers trace splash start_time main_window min_splash_time
       spinner_movie].
  split; [reflexivity|]. split; [reflexivity|]. split; [reflexivity|].
  split; [reflexivity|]. split; [reflexivity|]. split; [reflexivity|].
  split; [rewrite is_finish_scheduled_eq; reflexivity|].
  split; [reflexivity|].
  destruct (spinner_loads res); split; split;
    intros H; try reflexivity; discriminate H.
Qed.

(** ** The spinner movie is set up once *)

Lemma movie_kept_by_do_finish w W W' :
  _do_finish w W = Ok (tt, W') ->
  spinner_movie (self W') = spinner_movie (self W).
Proof.
  destruct (visible W) eqn:Hv.
  - rewrite (_do_finish_visible w W Hv). intros H; injection H as <-.
    destruct W as [[sp mv st m mw fs] t q tr]. reflexivity.
  - rewrite (_do_finish_hidden w W Hv). intros H; injection H as <-.
    destruct W as [[sp mv st m mw fs] t q tr]. reflexivity.
Qed.

Lemma movie_kept_by_fire i W W' :
  fire i W = Ok (tt, W') ->
  spinner_movie (self W') = spinner_movie (self W).
Proof.
  destruct (nth_error (timers W) i) as [[d cb]|] eqn:Hn.
  2:{ rewrite (fire_none i W Hn). intros H; injection H as <-. reflexivity. }
  rewrite (fire_some i W d cb Hn).
  set (Wm := mkWorld _ _ _ _).
  change (spinner_movie (self W)) with (spinner_movie (self Wm)).
  destruct cb as [|w]; cbn [run_callback].
  - destruct (main_window (self Wm)) as [w|] eqn:Hmw.
    + rewrite (_check_and_finish_set Wm w Hmw). intros H.
      apply movie_kept_by_do_finish in H. exact H.
    + rewrite (_check_and_finish_unset Wm Hmw). intros H; injection H as <-.
      reflexivity.
  - apply movie_kept_by_do_finish.
Qed.

Lemma movie_kept_by_dispatch_due fuel : forall W W',
  dispatch_due fuel W = Ok (tt, W') ->
  spinner_movie (self W') = spinner_movie (self W).
Proof.
  induction fuel as [|fuel IH]; intros W W' H.
  - injection H as <-. reflexivity.
  - rewrite dispatch_due_step in H.
    destruct (earliest (timers W)) as [[i d]|];
      [|injection H as <-; reflexivity].
    destruct (d <=? now W); [|injection H as <-; reflexivity].
    apply bind_inv in H. destruct H as [[] [W1 [H1 H2]]].
    rewrite (IH _ _ H2). apply (movie_kept_by_fire i). exact H1.
Qed.

Lemma movie_kept_by_step a W W' :
  step a W = Ok (tt, W') ->
  spinner_movie (self W') = spinner_movie (self W).
Proof.
  destruct a as [|w| | |o|d|i]; cbn [step]; intros H.
  - destruct (splash (self W)) as [s|] eqn:Hs.
    + destruct (dispatch_due_ok (List.length (timers W)) (splash_shown W))
        as [W2 H2].
      rewrite (show_eq W W2 ltac:(congruence) H2) in H. injection H as <-.
      apply movie_kept_by_dispatch_due in H2.
      destruct W2 as [[sp2 mv2 st2 m2 mw2 fs2] t2 q2 tr2].
      destruct W as [[sp mv st m mw fs] t q tr]. exact H2.
    + rewrite (show_no_splash W Hs) in H. injection H as <-. reflexivity.
  - destruct (splash (self W)) as [s|] eqn:Hs.
    2:{ rewrite (finish_no_splash w W Hs) in H. injection H as <-.
        reflexivity. }
    assert (Hs' : splash (self W) <> None) by congruence.
    destruct (start_time (self W)) as [t0|] eqn:Hst.
    2:{ rewrite (finish_before_show w W Hs' Hst) in H. injection H as <-.
        destruct W as [[sp mv st m mw fs] t q tr]. reflexivity. }
    destruct (Z_lt_le_dec (now W - t0) (min_splash_time (self W)))
      as [Hlt|Hle].
    + rewrite (finish_early w W t0 Hs' Hst Hlt) in H. injection H as <-.
      destruct W as [[sp mv st m mw fs] t q tr]. reflexivity.
    + rewrite (finish_late w W t0 Hs' Hst Hle) in H.
      apply movie_kept_by_do_finish in H. rewrite H.
      destruct W as [[sp mv st m mw fs] t q tr]. reflexivity.
  - destruct (visible W) eqn:Hv.
    + rewrite (close_visible W Hv) in H. injection H as <-.
      destruct W as [[sp mv st m mw fs] t q tr]. reflexivity.
    + rewrite (close_hidden W Hv) in H. injection H as <-. reflexivity.
  - unfold bind in H. rewrite is_finish_scheduled_eq in H.
    injection H as <-. reflexivity.
  - injection H as <-. destruct W as [[sp mv st m mw fs] t q tr].
    reflexivity.
  - injection H as <-. destruct W as [[sp mv st m mw fs] t q tr].
    reflexivity.
  - apply (movie_kept_by_fire i). exact H.
Qed.

(** X9: the spinner movie is set up in the constructor and never touched
    again: no call, timer or wait stops it, rescales it or replaces it,
    so a spinner that loaded is still running after the splash has been
    finished or closed. *)
Theorem spinner_movie_never_stopped res t0 acts W0 W :
  construct res t0 = Ok (tt, W0) ->
  run acts W0 = Ok (tt, W) ->
  spinner_movie (self W) =
  Some (mkMovie (spinner_loads res) (Some (32, 32)) (spinner_loads res)).
Proof.
  intros Hc Hr.
  assert (H0 : spinner_movie (self W0) =
               Some (mkMovie (spinner_loads res) (Some (32, 32))
                             (spinner_loads res))).
  { rewrite construct_eq in Hc. injection Hc as <-. reflexivity. }
  rewrite <- H0. clear Hc H0. revert W0 Hr.
  induction acts as [|a acts IH]; intros W0 Hr.
  - injection Hr as <-. reflexivity.
  - cbn [run] in Hr. apply bind_inv in Hr.
    destruct Hr as [[] [W1 [H1 H2]]].
    rewrite (IH W1 H2). apply (movie_kept_by_step a). exact H1.
Qed.

Lemma spinner_movie_never_stopped_witness :
  spinner_movie (self demo_done) = Some (mkMovie true (Some (32, 32)) true).
Proof.
  apply (spinner_movie_never_stopped demo_res 0 demo_acts
           (constructed demo_res 0) demo_done).
  - vm_compute; reflexivity.
  - vm_compute; reflexivity.
Defined.

Lemma scenario_finish_early_witness :
  exists W',
    dispatch_n 5 (after [AShow; AWait 500; AFinish 7%nat]
                        (constructed demo_res 0)) = Ok (tt, W') /\
    do_finish_runs (trace W') = [(0 + 2000, 7%nat)] /\
    In (0 + 2000, Tk_finish 7%nat) (trace W') /\
    visible W' = false.
Proof.
  apply (scenario_finish_early demo_res 0 500 7%nat 5).
  - vm_compute; split; reflexivity.
  - vm_compute; repeat constructor.
  - vm_compute; reflexivity.
Defined.
